(** * saaslib: email transport, Turnstile gate, token service, ownership policy

    A shallow embedding of the NestJS services of the repository:
    - [Email]: [EmailService] (constructor and [sendEmail]),
    - [Turnstile]: [BaseTurnstileService] and [BaseTurnstileController],
    - [TokenService] and [Ownership]: the session-token rotation and the
      ownership policy, whose implementation is not among the sources and is
      modelled from the specification.

    Asynchronous methods are modelled as computations that produce a trace of
    observable events (log lines, calls to collaborators) and either return a
    value or throw. Replies of third parties are inputs of the model. *)

From Stdlib Require Import Ascii String QArith.
From stdpp Require Import base option list strings gmap.

Local Open Scope string_scope.
Local Open Scope list_scope.

(** ** JavaScript values and control flow *)

Module Js.

(** Truthiness of a value of type [string | null | undefined]: the empty
    string, [null] and [undefined] are falsy. *)
Definition truthy (v : option string) : bool :=
  match v with
  | Some s => negb (String.eqb s "")
  | None => false
  end.

(** [a || b] on [string | undefined] operands. *)
Definition or_else (a b : option string) : option string :=
  if truthy a then a else b.

(** [a || d] where [d] is a string. *)
Definition or_str (a : option string) (d : string) : string :=
  match a with
  | Some s => if truthy a then s else d
  | None => d
  end.

(** A JavaScript number: a finite value, kept exact, or [NaN]. *)
Inductive number :=
| Num (q : Q)
| NaN.

(** [x > n]; every comparison with [NaN] is false. *)
Definition number_gt (x : number) (n : Q) : bool :=
  match x with
  | Num q => negb (Qle_bool q n)
  | NaN => false
  end.

(** [a !== b] on [string | undefined] operands. *)
Definition strict_ne (a b : option string) : bool :=
  match a, b with
  | Some x, Some y => negb (String.eqb x y)
  | None, None => false
  | _, _ => true
  end.

(** [process.env]: a finite map from names to strings; a missing name reads
    as [undefined]. *)
Abbreviation env := (gmap string string).

(** Result of running a method body: it returns or it throws. *)
Inductive outcome (E A : Type) : Type :=
| Returned (a : A)
| Thrown (e : E).
Arguments Returned {E A} a.
Arguments Thrown {E A} e.

(** A computation: the events it emitted, in order, and its outcome. *)
Definition M (Ev E A : Type) : Type := (list Ev * outcome E A)%type.

Section Monad.
Context {Ev E : Type}.

Definition ret {A} (a : A) : M Ev E A := ([], Returned a).

Definition bind {A B} (m : M Ev E A) (k : A → M Ev E B) : M Ev E B :=
  match m with
  | (tr, Returned a) => let '(tr', o) := k a in (tr ++ tr', o)
  | (tr, Thrown e) => (tr, Thrown e)
  end.

Definition emit (ev : Ev) : M Ev E unit := ([ev], Returned tt).

Definition throw {A} (e : E) : M Ev E A := ([], Thrown e).

(** [try { m } catch (e) { h e }] *)
Definition try_catch {A} (m : M Ev E A) (h : E → M Ev E A) : M Ev E A :=
  match m with
  | (tr, Returned a) => (tr, Returned a)
  | (tr, Thrown e) => let '(tr', o) := h e in (tr ++ tr', o)
  end.

Definition trace {A} (m : M Ev E A) : list Ev := fst m.
Definition result {A} (m : M Ev E A) : outcome E A := snd m.

Definition returns {A} (m : M Ev E A) : bool :=
  match result m with Returned _ => true | Thrown _ => false end.
End Monad.

#[global] Instance M_ret {Ev E} : MRet (M Ev E) := @ret Ev E.
#[global] Instance M_bind {Ev E} : MBind (M Ev E) := λ A B k m, bind m k.

(** A promise handed back by a third party: it resolves or it rejects. *)
Inductive reply (X A : Type) : Type :=
| Resolves (a : A)
| Rejects (x : X).
Arguments Resolves {X A} a.
Arguments Rejects {X A} x.

(** [await p], where a rejection with [x] is thrown as [inj x]. *)
Definition await {Ev E X A} (inj : X → E) (p : reply X A) : M Ev E A :=
  match p with
  | Resolves a => ret a
  | Rejects x => throw (inj x)
  end.

End Js.

Import Js.

(** ** Strings *)

Module Str.

(** [xs.join(sep)] *)
Fixpoint join (sep : string) (xs : list string) : string :=
  match xs with
  | [] => ""
  | [x] => x
  | x :: rest => x +:+ sep +:+ join sep rest
  end.

(** [s.split(c)[0]]: the part of [s] before the first [c], all of [s] when
    [c] does not occur. *)
Fixpoint before (c : ascii) (s : string) : string :=
  match s with
  | EmptyString => EmptyString
  | String a rest => if Ascii.eqb a c then EmptyString else String a (before c rest)
  end.

(** Longest prefix without [c], and what follows it. *)
Fixpoint span_not (c : ascii) (s : string) : string * string :=
  match s with
  | EmptyString => (EmptyString, EmptyString)
  | String a rest =>
      if Ascii.eqb a c then (EmptyString, s)
      else let '(run, tl) := span_not c rest in (String a run, tl)
  end.

(** First capture group of [s.match(/<([^>]+)>/)], [None] when the pattern
    does not match. At a ["<"] the greedy class takes every character up to
    the next [">"]; the match succeeds there when that run is not empty and
    a [">"] follows, otherwise the search goes on with the next position. *)
Fixpoint match_angle (s : string) : option string :=
  match s with
  | EmptyString => None
  | String a rest =>
      if Ascii.eqb a "<"%char then
        match span_not ">"%char rest with
        | (String r run, String _ _) => Some (String r run)
        | _ => match_angle rest
        end
      else match_angle rest
  end.

(** White space and line terminators of ECMAScript among the code units
    below 256, which is what a [string] of this model holds. *)
Definition is_space (a : ascii) : bool :=
  let n := nat_of_ascii a in
  ((9 <=? n)%nat && (n <=? 13)%nat) || (n =? 32)%nat || (n =? 160)%nat.

Fixpoint trim_start (s : string) : string :=
  match s with
  | EmptyString => EmptyString
  | String a rest => if is_space a then trim_start rest else s
  end.

Fixpoint trim_end (s : string) : string :=
  match s with
  | EmptyString => EmptyString
  | String a rest =>
      match trim_end rest with
      | EmptyString => if is_space a then EmptyString else String a EmptyString
      | r => String a r
      end
  end.

(** [s.trim()] *)
Definition trim (s : string) : string := trim_end (trim_start s).

End Str.

(** ** Email transport: [EmailService]

    [emailConfig] has the declared type [EmailConfigOptions]; of its fields
    [sendEmail] reads [from] and [senderName] only, the templates are used by
    the template methods and are left out. *)

Module Email.

Definition nl : string := String (ascii_of_nat 10) EmptyString.

Record EmailConfigOptions := {
  from : string;
  senderName : option string;
}.

(** The provider clients, identified by what they were constructed with. *)
Record MailerSend := { apiKey : string }.

Record SESClient := {
  region : option string;
  accessKeyId : string;
  secretAccessKey : option string;
}.

(** The fields of an [EmailService] instance. *)
Record EmailService := {
  emailConfig : EmailConfigOptions;
  sesClient : option SESClient;
  sendGridEnabled : bool;
  mailerSendClient : option MailerSend;
}.

(** What is handed to each provider. *)
Record Sender := { sender_email : string; sender_name : string }.
Record Recipient := { recipient_email : string; recipient_name : string }.

Record EmailParams := {
  ep_from : Sender;
  ep_to : list Recipient;
  ep_replyTo : Sender;
  ep_subject : string;
  ep_html : string;
}.

Record SendGridMsg := {
  sg_to : list string;
  sg_from : string;
  sg_subject : string;
  sg_html : string;
  sg_headers : option (list (string * string));
}.

Record SesParams := {
  Source : string;
  ToAddresses : list string;
  HtmlData : string;
  SubjectData : string;
  Headers : option (list (string * string));
}.

(** The value a provider rejects with: a message and, for SendGrid, the body
    of the HTTP response when there is one. *)
Record ProviderError := {
  err_message : string;
  err_response : option string;
}.

Inductive exn :=
| Error (message : string)
| Rejected (e : ProviderError).

Inductive provider := MailerSendP | SendGridP | SesP.

Inductive event :=
| SgSetApiKey (key : string)
| LoggerLog (msg : string)
| LoggerWarn (msg : string)
| LoggerError (msg : string) (detail : option exn)
| ConsoleLog (msg : string)
| ConsoleLogMsg (label : string) (msg : SendGridMsg)
| MailerSendCall (client : MailerSend) (p : EmailParams)
| SendGridCall (m : SendGridMsg)
| SesCall (client : SESClient) (p : SesParams).

(** The three transports: what each answers to a request. *)
Record Providers := {
  mailersend : MailerSend → EmailParams → reply ProviderError unit;
  sendgrid : SendGridMsg → reply ProviderError unit;
  ses : SESClient → SesParams → reply ProviderError (option string);
}.

(** [process.env.K] when it is truthy. *)
Definition secret (e : env) (k : string) : option string :=
  if truthy (e !! k) then e !! k else None.

(** [new SESClient(config)] belongs to the AWS SDK, which is not among the
    sources. For a configuration it returns the client or it throws an
    [Error] (it does so for an empty region); the constructor of
    [EmailService] does not catch it. [None] stands for a client that is
    returned, [Some message] for the error that is thrown. *)
Definition SESClientConstructor : Type := SESClient → option string.

(** The constructor: [this.emailConfig = options.email], then the first
    configured secret among MailerSend, SendGrid, SES decides the client. *)
Definition constructor (new_SESClient : SESClientConstructor) (e : env)
    (email : EmailConfigOptions) : M event exn EmailService :=
  let this := {| emailConfig := email; sesClient := None;
                 sendGridEnabled := false; mailerSendClient := None |} in
  match secret e "MAILERSEND_API_KEY" with
  | Some key =>
      mret {| emailConfig := emailConfig this; sesClient := sesClient this;
              sendGridEnabled := sendGridEnabled this;
              mailerSendClient := Some {| apiKey := key |} |}
  | None =>
      match secret e "SENDGRID_API_KEY" with
      | Some key =>
          emit (SgSetApiKey key);;
          mret {| emailConfig := emailConfig this; sesClient := sesClient this;
                  sendGridEnabled := true;
                  mailerSendClient := mailerSendClient this |}
      | None =>
          match secret e "AWS_SES_ACCESS_KEY_ID" with
          | Some id =>
              let config := {| region := e !! "AWS_SES_REGION";
                               accessKeyId := id;
                               secretAccessKey := e !! "AWS_SES_SECRET_ACCESS_KEY" |} in
              match new_SESClient config with
              | Some message => throw (Error message)
              | None =>
                  mret {| emailConfig := emailConfig this;
                          sesClient := Some config;
                          sendGridEnabled := sendGridEnabled this;
                          mailerSendClient := mailerSendClient this |}
              end
          | None => mret this
          end
      end
  end.

(** [formattedSender] *)
Definition formattedSender (cfg : EmailConfigOptions) : string :=
  match senderName cfg with
  | Some name => if truthy (Some name) then name +:+ " <" +:+ from cfg +:+ ">" else from cfg
  | None => from cfg
  end.

(** The MailerSend request built by [sendEmail]. *)
Definition mailerSendParams (cfg : EmailConfigOptions) (to : list string)
    (subject body : string) : EmailParams :=
  let fromEmail :=
    match Str.match_angle (from cfg) with
    | Some m => m
    | None => Str.trim (from cfg)
    end in
  let sentFrom := {| sender_email := fromEmail;
                     sender_name := or_str (senderName cfg) "NailVision" |} in
  let recipients :=
    map (λ recipient, {| recipient_email := recipient;
                         recipient_name := Str.before "@" recipient |}) to in
  {| ep_from := sentFrom; ep_to := recipients; ep_replyTo := sentFrom;
     ep_subject := subject; ep_html := body |}.

Definition unsubscribeHeader (cfg : EmailConfigOptions) (url : string) : string :=
  "<mailto:" +:+ from cfg +:+ "?subject=unsubscribe>, <" +:+ url +:+ ">".

(** The SendGrid message built by [sendEmail]. *)
Definition sendGridMsg (cfg : EmailConfigOptions) (to : list string)
    (subject body : string) (unsubscribeUrl : option string) : SendGridMsg :=
  {| sg_to := to; sg_from := formattedSender cfg; sg_subject := subject;
     sg_html := body;
     sg_headers :=
       match unsubscribeUrl with
       | Some url =>
           if truthy (Some url)
           then Some [("List-Unsubscribe", unsubscribeHeader cfg url);
                      ("List-Unsubscribe-Post", "List-Unsubscribe=One-Click")]
           else None
       | None => None
       end |}.

(** The SES command parameters built by [sendEmail]. *)
Definition sesParams (cfg : EmailConfigOptions) (to : list string)
    (subject body : string) (unsubscribeUrl : option string) : SesParams :=
  {| Source := formattedSender cfg; ToAddresses := to; HtmlData := body;
     SubjectData := subject;
     Headers :=
       match unsubscribeUrl with
       | Some url =>
           if truthy (Some url)
           then Some [("List-Unsubscribe", unsubscribeHeader cfg url);
                      ("List-Unsubscribe-Post", "List-Unsubscribe=One-Click")]
           else None
       | None => None
       end |}.

(** [error.response], when the thrown value has one. *)
Definition response_body (error : exn) : option string :=
  match error with
  | Rejected e => err_response e
  | Error _ => None
  end.

(** [sendEmail(to, subject, body, unsubscribeUrl?)] *)
Definition sendEmail (w : Providers) (this : EmailService) (to : list string)
    (subject body : string) (unsubscribeUrl : option string) : M event exn unit :=
  let cfg := emailConfig this in
  match mailerSendClient this with
  | Some client =>
      let emailParams := mailerSendParams cfg to subject body in
      try_catch
        (emit (MailerSendCall client emailParams);;
         await Rejected (mailersend w client emailParams);;
         emit (LoggerLog ("Email sent to " +:+ Str.join "," to +:+ " via MailerSend")))
        (λ error,
           emit (LoggerError "Failed to send email via MailerSend:" (Some error));;
           throw (Error "Failed to send email via MailerSend"))
  | None =>
      if sendGridEnabled this then
        let msg := sendGridMsg cfg to subject body unsubscribeUrl in
        try_catch
          (emit (ConsoleLogMsg "Sending email via SendGrid" msg);;
           emit (SendGridCall msg);;
           await Rejected (sendgrid w msg);;
           emit (LoggerLog ("Email sent to " +:+ Str.join "," to +:+ " via SendGrid")))
          (λ error,
             emit (LoggerError "Failed to send email via SendGrid:" (Some error));;
             match response_body error with
             | Some body => emit (LoggerError body None)
             | None => mret tt
             end;;
             throw (Error "Failed to send email via SendGrid"))
      else
        match sesClient this with
        | None =>
            emit (LoggerWarn "AWS SES and SendGrid not configured, email not sent.");;
            emit (ConsoleLog (nl +:+ nl +:+ "To: " +:+ Str.join ", " to));;
            emit (ConsoleLog ("Subject: " +:+ subject));;
            emit (ConsoleLog (body +:+ nl +:+ nl))
        | Some client =>
            let params := sesParams cfg to subject body unsubscribeUrl in
            try_catch
              (emit (SesCall client params);;
               response ← await Rejected (ses w client params);
               emit (LoggerLog ("Email " +:+ default "undefined" response
                                +:+ " sent to " +:+ Str.join "," to)))
              (λ error,
                 emit (LoggerError "Failed to send email:" (Some error));;
                 throw (Error "Failed to send email"))
        end
  end.

(** The providers an instance has enabled, and the one [sendEmail] uses. *)
Definition active_providers (this : EmailService) : list provider :=
  match mailerSendClient this with Some _ => [MailerSendP] | None => [] end
  ++ (if sendGridEnabled this then [SendGridP] else [])
  ++ match sesClient this with Some _ => [SesP] | None => [] end.

Definition contacted_by (ev : event) : list provider :=
  match ev with
  | MailerSendCall _ _ => [MailerSendP]
  | SendGridCall _ => [SendGridP]
  | SesCall _ _ => [SesP]
  | _ => []
  end.

(** The providers a run of [sendEmail] handed a message to. *)
Definition contacted (tr : list event) : list provider :=
  concat (contacted_by <$> tr).

(** The rejection, if any, with which the provider that serves this call
    answers the request built for it. *)
Definition delivery_failure (w : Providers) (this : EmailService) (to : list string)
    (subject body : string) (unsubscribeUrl : option string) : option (provider * ProviderError) :=
  let cfg := emailConfig this in
  match mailerSendClient this with
  | Some client =>
      match mailersend w client (mailerSendParams cfg to subject body) with
      | Rejects e => Some (MailerSendP, e)
      | Resolves _ => None
      end
  | None =>
      if sendGridEnabled this then
        match sendgrid w (sendGridMsg cfg to subject body unsubscribeUrl) with
        | Rejects e => Some (SendGridP, e)
        | Resolves _ => None
        end
      else
        match sesClient this with
        | Some client =>
            match ses w client (sesParams cfg to subject body unsubscribeUrl) with
            | Rejects e => Some (SesP, e)
            | Resolves _ => None
            end
        | None => None
        end
  end.

(** Message of the [Error] thrown after a failed delivery, per provider. *)
Definition failure_message (p : provider) : string :=
  match p with
  | MailerSendP => "Failed to send email via MailerSend"
  | SendGridP => "Failed to send email via SendGrid"
  | SesP => "Failed to send email"
  end.

End Email.

(** ** Turnstile: [BaseTurnstileService] and [BaseTurnstileController] *)

Module Turnstile.

(** The JSON object answered by the siteverify endpoint, with the fields the
    service reads. A field that is absent reads as [undefined]; [success] is
    the truthiness of the property. *)
Record SiteverifyResponse := {
  success : bool;
  error_codes : option (list string);
  action : option string;
  hostname : option string;
  challenge_ts : option string;
}.

(** The object returned by [validateTurnstileEnhanced]; a field that a branch
    does not set is [None]. *)
Record TurnstileResult := {
  valid : bool;
  reason : option string;
  errors : option (list string);
  expected : option string;
  received : option string;
  data : option SiteverifyResponse;
  tokenAge : option number;
}.

(** Body of the [BadRequestException] thrown by the controller. *)
Record BadRequestBody := {
  message : string;
  body_reason : option string;
  body_errors : option (list string);
}.

Inductive exn :=
| FetchError (msg : string)
| JsonError (msg : string)
| TypeError (msg : string)
| BadRequestException (body : BadRequestBody).

Inductive event :=
| HttpPost (url : string) (form : list (string * string))
| ConsoleError (msg : string) (error : exn)
| ConsoleWarnTokenAge (ageMinutes : number)
| ValidateCall (token : string) (remoteip expectedAction expectedHostname : option string).

(** What [response.json()] resolves to: any JSON value. [null] has no
    properties, and reading one throws; every other value can be read. An
    object reads as its fields; a number, a string, a boolean or an array has
    none of the fields of the answer and reads as the object without them. *)
Inductive body :=
| Null
| Fields (v : SiteverifyResponse).

(** The network: [fetch] rejects, or resolves to a response whose [json()]
    rejects or resolves to the parsed value. *)
Record Http := {
  fetch : string → list (string * string) → reply string (reply string body);
}.

Definition siteverify_url : string :=
  "https://challenges.cloudflare.com/turnstile/v0/siteverify".

Definition internal_error : SiteverifyResponse :=
  {| success := false; error_codes := Some ["internal-error"]; action := None;
     hostname := None; challenge_ts := None |}.

(** The form posted by [validateTurnstile]; [secretKey] is the service's
    field, read from [TURNSTILE_SECRET_KEY] ([FormData.append] turns
    [undefined] into the string ["undefined"]). *)
Definition formData (secretKey : option string) (token : string)
    (remoteip : option string) : list (string * string) :=
  [("secret", default "undefined" secretKey); ("response", token)]
  ++ (if truthy remoteip then [("remoteip", default "" remoteip)] else []).

(** [validateTurnstile(token, remoteip)] *)
Definition validateTurnstile (secretKey : option string) (w : Http)
    (token : string) (remoteip : option string) : M event exn body :=
  let formData := formData secretKey token remoteip in
  try_catch
    (emit (HttpPost siteverify_url formData);;
     response ← await FetchError (fetch w siteverify_url formData);
     result ← await JsonError response;
     mret result)
    (λ error,
       emit (ConsoleError "Turnstile validation error:" error);;
       mret (Fields internal_error)).

(** The three shapes of an invalid result, and the valid one below. *)
Definition failed_result (v : SiteverifyResponse) : TurnstileResult :=
  {| valid := false; reason := Some "turnstile_failed"; errors := error_codes v;
     expected := None; received := None; data := None; tokenAge := None |}.

Definition mismatch_result (why : string) (want got : option string) : TurnstileResult :=
  {| valid := false; reason := Some why; errors := None; expected := want;
     received := got; data := None; tokenAge := None |}.

Section Builtins.

(** [new Date(v).getTime()] for the [challenge_ts] field: milliseconds since
    the epoch, [None] for an invalid date ([NaN]). *)
Variable Date_getTime : option string → option Z.

(** [new URL(s).hostname]; [None] when the constructor throws. *)
Variable URL_hostname : string → option string.

(** [(now.getTime() - challengeTime.getTime()) / (1000 * 60)] *)
Definition ageMinutes (now : Z) (v : SiteverifyResponse) : number :=
  match Date_getTime (challenge_ts v) with
  | Some t => Num ((now - t) # 60000)
  | None => NaN
  end.

Definition valid_result (now : Z) (v : SiteverifyResponse) : TurnstileResult :=
  {| valid := true; reason := None; errors := None; expected := None;
     received := None; data := Some v; tokenAge := Some (ageMinutes now v) |}.

(** [validateTurnstileEnhanced(token, remoteip, expectedAction?, expectedHostname?)];
    [now] is the clock read by [new Date()]. *)
Definition validateTurnstileEnhanced (secretKey : option string) (w : Http) (now : Z)
    (token : string) (remoteip expectedAction expectedHostname : option string)
  : M event exn TurnstileResult :=
  validation ← validateTurnstile secretKey w token remoteip;
  match validation with
  | Null => throw (TypeError "Cannot read properties of null (reading 'success')")
  | Fields validation =>
      if negb (success validation) then
        mret (failed_result validation)
      else if truthy expectedAction && strict_ne (action validation) expectedAction then
        mret (mismatch_result "action_mismatch" expectedAction (action validation))
      else if truthy expectedHostname
              && strict_ne (hostname validation) expectedHostname then
        mret (mismatch_result "hostname_mismatch" expectedHostname (hostname validation))
      else
        let age := ageMinutes now validation in
        (if number_gt age 4 then emit (ConsoleWarnTokenAge age) else mret tt);;
        mret (valid_result now validation)
  end.

(** The request as the controller reads it. *)
Record Request := {
  headers : gmap string string;
  ip : option string;
}.

Record Ok := { ok : bool }.

(** The injected validator: [BaseTurnstileService.validateTurnstileEnhanced]
    in production, a stub in the controller's tests. *)
Definition Validator : Type :=
  string → option string → option string → option string → M event exn TurnstileResult.

(** The client address the controller forwards. *)
Definition clientIp (req : Request) : option string :=
  or_else (or_else (or_else (headers req !! "cf-connecting-ip")
                            (headers req !! "x-forwarded-for"))
                   (ip req))
          None.

(** [handleFormSubmission(req, token)] *)
Definition handleFormSubmission (turnstileService : Validator) (e : env)
    (req : Request) (token : string) : M event exn Ok :=
  let frontendUrl := or_str (e !! "FRONTEND_ENDPOINT") "" in
  match URL_hostname frontendUrl with
  | None => throw (TypeError "Invalid URL")
  | Some expectedHostname =>
      emit (ValidateCall token (clientIp req) (Some "signup") (Some expectedHostname));;
      result ← turnstileService token (clientIp req) (Some "signup") (Some expectedHostname);
      if negb (valid result) then
        throw (BadRequestException
                 {| message := "Invalid Turnstile verification";
                    body_reason := reason result;
                    body_errors := errors result |})
      else mret {| ok := true |}
  end.

End Builtins.

End Turnstile.

(** ** Token service

    The implementation of the token service is not among the sources; the
    definitions of this module follow the specification (sections 3 and 4.1).
    The store holds the refresh-token records; records are never deleted, and
    the token id of a record is its position in the store. The signature of
    an access token is not modelled. *)

Module TokenService.

Record RefreshRecord := {
  owner : nat;
  family : nat;
  issued_at : Z;
  expires_at : Z;
  revoked : bool;
  superseded_by : option nat;
}.

Abbreviation store := (list RefreshRecord).

Record AccessToken := {
  subject : nat;
  token_family : nat;
  token_issued_at : Z;
  token_expiry : Z;
}.

Record TokenPair := {
  accessToken : AccessToken;
  refreshToken : nat;
}.

Inductive AuthError := InvalidToken | Expired | ReuseDetected | Unknown.

Inductive target := ByUser (userId : nat) | ByFamily (familyId : nat).

Definition set_revoked (r : RefreshRecord) : RefreshRecord :=
  {| owner := owner r; family := family r; issued_at := issued_at r;
     expires_at := expires_at r; revoked := true;
     superseded_by := superseded_by r |}.

Definition set_superseded (by_token : nat) (r : RefreshRecord) : RefreshRecord :=
  {| owner := owner r; family := family r; issued_at := issued_at r;
     expires_at := expires_at r; revoked := revoked r;
     superseded_by := Some by_token |}.

Definition superseded (r : RefreshRecord) : bool :=
  match superseded_by r with Some _ => true | None => false end.

Definition expired (now : Z) (r : RefreshRecord) : bool := (expires_at r <=? now)%Z.

(** Modelled from the spec: the token service is missing from the sources. A
    record is live when it is non-revoked, unexpired and unsuperseded. *)
Definition live (now : Z) (r : RefreshRecord) : bool :=
  negb (revoked r) && negb (expired now r) && negb (superseded r).

(** A family id that no record of the store carries. *)
Definition fresh_family (s : store) : nat :=
  S (foldr Nat.max 0%nat (family <$> s)).

Definition matches (tg : target) (r : RefreshRecord) : bool :=
  match tg with
  | ByUser u => (owner r =? u)%nat
  | ByFamily f => (family r =? f)%nat
  end.

(** Number of records of [s] that satisfy [p]. *)
Fixpoint count (p : RefreshRecord → bool) (s : store) : nat :=
  match s with
  | [] => 0%nat
  | r :: rest => ((if p r then 1 else 0) + count p rest)%nat
  end.

Definition in_family (f : nat) (r : RefreshRecord) : bool := (family r =? f)%nat.

(** Live records of family [f] at time [now]. *)
Definition live_in (now : Z) (f : nat) (s : store) : nat :=
  count (λ r, live now r && in_family f r) s.

(** A record that is neither revoked nor superseded: live until it expires. *)
Definition unspent (r : RefreshRecord) : bool :=
  negb (revoked r) && negb (superseded r).

Definition unspent_in (f : nat) (s : store) : nat :=
  count (λ r, unspent r && in_family f r) s.

(** The invariant: no family has two records that are neither revoked nor
    superseded. *)
Definition one_branch (s : store) : Prop := ∀ f, (unspent_in f s ≤ 1)%nat.


Section Service.

(** Lifetimes of refresh and access tokens. *)
Variables refresh_ttl access_ttl : Z.

(** The specification gives the expiry check and the reuse check of
    [refresh] in two orders. The list of steps of section 4.1 has the expiry
    check first. Sections 3, 7 and 8 have the family revoked the instant a
    token that is revoked or superseded is presented, and the replay of a
    superseded token answered with [ReuseDetected] always, so also after its
    expiry. [reuse_first] selects the order: [true] for the reuse check
    first, [false] for the order of the list. *)
Variable reuse_first : bool.

Definition new_record (now : Z) (userId fam : nat) : RefreshRecord :=
  {| owner := userId; family := fam; issued_at := now;
     expires_at := (now + refresh_ttl)%Z; revoked := false;
     superseded_by := None |}.

Definition new_pair (now : Z) (userId fam tid : nat) : TokenPair :=
  {| accessToken := {| subject := userId; token_family := fam;
                       token_issued_at := now;
                       token_expiry := (now + access_ttl)%Z |};
     refreshToken := tid |}.

(** Modelled from the spec: the token service is missing from the sources.
    [issue(userId)] creates a new family (a fresh family id) with one record,
    and an access token that references the family. *)
Definition issue (s : store) (now : Z) (userId : nat) : store * TokenPair :=
  let fam := fresh_family s in
  let tid := length s in
  (s ++ [new_record now userId fam], new_pair now userId fam tid).

(** Modelled from the spec: the token service is missing from the sources.
    [revoke(userIdOrFamilyId)] marks all matching records revoked. *)
Definition revoke (s : store) (tg : target) : store :=
  (λ r, if matches tg r then set_revoked r else r) <$> s.

(** Modelled from the spec: the token service is missing from the sources.
    [refresh(refreshToken)], steps 1 to 5 of section 4.1: look the record
    up; absent, [Unknown]; expired, [Expired]; revoked or superseded, revoke
    the whole family and answer [ReuseDetected]; otherwise mark the record
    superseded and create a new record in the same family, as one step
    against the store. With [reuse_first] a record that is revoked or
    superseded is answered as reuse before its expiry is looked at. *)
Definition refresh (s : store) (now : Z) (token : nat)
  : store * (AuthError + TokenPair) :=
  match s !! token with
  | None => (s, inl Unknown)
  | Some r =>
      if reuse_first && (revoked r || superseded r) then
        (revoke s (ByFamily (family r)), inl ReuseDetected)
      else if expired now r then (s, inl Expired)
      else if revoked r || superseded r then
        (revoke s (ByFamily (family r)), inl ReuseDetected)
      else
        let tid := length s in
        (<[token := set_superseded tid r]> s ++ [new_record now (owner r) (family r)],
         inr (new_pair now (owner r) (family r) tid))
  end.

(** The operations that change the store, each an atomic step. *)
Inductive op :=
| Issue (now : Z) (userId : nat)
| Refresh (now : Z) (token : nat)
| Revoke (tg : target).

Definition step (s : store) (o : op) : store :=
  match o with
  | Issue now u => (issue s now u).1
  | Refresh now t => (refresh s now t).1
  | Revoke tg => revoke s tg
  end.

(** The store after a sequence of operations. *)
Definition run (s : store) (ops : list op) : store := foldl step s ops.

End Service.

End TokenService.

(** ** Ownership policy

    The ownership service is not among the sources (only its use in the
    README is); the definitions of this module follow the specification
    (section 4.3). The engine is generic over the resource and the viewer. *)

Module Ownership.

Section Policy.

Context {Id Resource Viewer : Type} `{EqDecision Id}.

(** [resource.owner.id] and [viewer.id] *)
Variable owner_id : Resource → Id.
Variable viewer_id : Viewer → Id.

(** The override points; [None] when no override is installed. *)
Record Overrides := {
  canView_override : option (Resource → option Viewer → bool);
  canEdit_override : option (Resource → option Viewer → bool);
  canDelete_override : option (Resource → option Viewer → bool);
}.

Definition no_overrides : Overrides :=
  {| canView_override := None; canEdit_override := None;
     canDelete_override := None |}.

(** Modelled from the spec: the ownership service is missing from the
    sources. The default capability: the viewer is the owner. *)
Definition owner_only (resource : Resource) (viewer : option Viewer) : bool :=
  match viewer with
  | Some v => bool_decide (viewer_id v = owner_id resource)
  | None => false
  end.

(** Modelled from the spec: the ownership service is missing from the
    sources. [canView(resource, viewer)]: default true if
    [viewer.id == resource.owner.id]; overridable. *)
Definition canView (p : Overrides) (resource : Resource) (viewer : option Viewer) : bool :=
  match canView_override p with
  | Some f => f resource viewer
  | None => owner_only resource viewer
  end.

(** Modelled from the spec: the ownership service is missing from the
    sources. [canEdit(resource, viewer)]: default owner-only; overridable. *)
Definition canEdit (p : Overrides) (resource : Resource) (viewer : option Viewer) : bool :=
  match canEdit_override p with
  | Some f => f resource viewer
  | None => owner_only resource viewer
  end.

(** Modelled from the spec: the ownership service is missing from the
    sources. [canDelete(resource, viewer)]: default owner-only; overridable. *)
Definition canDelete (p : Overrides) (resource : Resource) (viewer : option Viewer) : bool :=
  match canDelete_override p with
  | Some f => f resource viewer
  | None => owner_only resource viewer
  end.

End Policy.

End Ownership.

(** ** Email transport: the template methods of [EmailService]

    [sendTemplateEmail] and the five methods built on it. The declarations of
    [EmailTemplate] and [BaseUser] are not among the sources: a template has
    the fields that [sendTemplateEmail] reads, a user the fields that the
    methods read. A field of a template that holds a function may be missing,
    and calling it then throws a [TypeError]. The templates are the
    [templates] field of [emailConfig]; they are passed beside the instance. *)

Module Templates.

Import Email.

Definition dq : string := String (ascii_of_nat 34) EmptyString.

(** Template literal [${v}] of a value that may be [undefined]. *)
Definition show (v : option string) : string := default "undefined" v.

Record BaseUser := {
  _id : string;
  email : string;
  name : option string;
}.

Record EmailTemplate (T : Type) := {
  disabled : bool;
  handlebarsHtml : option string;
  html : option (T → option string);
  subject : option (T → option string);
}.
Arguments disabled {T} _.
Arguments handlebarsHtml {T} _.
Arguments html {T} _.
Arguments subject {T} _.

Record WelcomeVars := {
  wv_user : BaseUser;
  wv_email : string;
  wv_name : string;
}.

Record CodeVars := {
  cv_user : BaseUser;
  cv_code : string;
  cv_link : string;
}.

Record FailedPaymentVars := {
  fp_user : BaseUser;
  fp_failureReason : string;
  fp_amount : string;
  fp_paymentFixUrl : string;
}.

(** [emailConfig.templates]; [newSubscription] is the object that maps a
    subscription type to its template, given by its own properties. *)
Record TemplateSet := {
  welcome : option (EmailTemplate WelcomeVars);
  verification : option (EmailTemplate CodeVars);
  passwordReset : option (EmailTemplate CodeVars);
  newSubscription : option (gmap string (EmailTemplate CodeVars));
  failedPayment : option (EmailTemplate FailedPaymentVars);
}.

Record Defaults := {
  default_subject : string;
  default_html : string;
}.

(** What a template method can throw: what [sendEmail] threw, a [TypeError]
    for a call of a missing function, or what Handlebars threw. *)
Inductive texn :=
| SendFailed (e : exn)
| TypeError (msg : string)
| HandlebarsError (msg : string).

(** [await this.sendEmail(...)] inside a template method. *)
Definition awaitSend {A} (m : M event exn A) : M event texn A :=
  (trace m,
   match result m with
   | Returned a => Returned a
   | Thrown e => Thrown (SendFailed e)
   end).

(** Calling a field that should hold a function. *)
Definition call {T} (field : string) (f : option (T → option string)) (vars : T)
  : M event texn (option string) :=
  match f with
  | Some g => mret (g vars)
  | None => throw (TypeError (field +:+ " is not a function"))
  end.

(** The names that every object inherits from [Object.prototype]. *)
Definition Object_prototype : list string :=
  ["constructor"; "__defineGetter__"; "__defineSetter__"; "hasOwnProperty";
   "__lookupGetter__"; "__lookupSetter__"; "isPrototypeOf";
   "propertyIsEnumerable"; "toString"; "valueOf"; "__proto__";
   "toLocaleString"].

(** An inherited value read as a template: a function or an object with
    none of the fields of a template. *)
Definition inherited {T} : EmailTemplate T :=
  {| disabled := false; handlebarsHtml := None; html := None; subject := None |}.

(** [object[key]] on the object of the configuration: the own property, or
    else a property inherited from [Object.prototype], or else
    [undefined]. *)
Definition property {T} (object : gmap string (EmailTemplate T)) (key : string)
  : option (EmailTemplate T) :=
  match object !! key with
  | Some t => Some t
  | None => if bool_decide (key ∈ Object_prototype) then Some inherited else None
  end.

Section Methods.

(** [Handlebars.compile(source)(vars)]: the rendered text, or what the
    library threw. *)
Variable Handlebars_compile : ∀ T : Type, string → T → outcome string string.

Variable w : Providers.
Variable this : EmailService.
Variable templates : option TemplateSet.

(** [sendTemplateEmail(to, template, vars, defaults)] *)
Definition sendTemplateEmail {T} (to : string) (template : option (EmailTemplate T))
    (vars : T) (defaults : Defaults) : M event texn unit :=
  match template with
  | None =>
      awaitSend (sendEmail w this [to] (default_subject defaults)
                   (default_html defaults) None)
  | Some t =>
      if disabled t then mret tt
      else
        htmlEmail ←
          (if truthy (handlebarsHtml t) then
             match Handlebars_compile T (default "" (handlebarsHtml t)) vars with
             | Returned text => mret text
             | Thrown msg => throw (HandlebarsError msg)
             end
           else
             body ← call "template.html" (html t) vars;
             mret (default (default_html defaults) body));
        subj ← call "template.subject" (subject t) vars;
        awaitSend (sendEmail w this [to] (default (default_subject defaults) subj)
                     htmlEmail None)
  end.

(** [sendWelcomeEmail(user)] *)
Definition sendWelcomeEmail (user : BaseUser) : M event texn unit :=
  let template := t ← templates; welcome t in
  sendTemplateEmail (email user) template
    {| wv_user := user; wv_email := email user;
       wv_name := default (Str.before "@" (email user)) (name user) |}
    {| default_subject := "Welcome";
       default_html := "<p>Welcome, " +:+ show (name user) +:+ "!</p>" |}.

(** [sendVerificationEmail(user, code)] *)
Definition sendVerificationEmail (e : env) (user : BaseUser) (code : string)
  : M event texn unit :=
  let template := t ← templates; verification t in
  sendTemplateEmail (email user) template
    {| cv_user := user; cv_code := code;
       cv_link := show (e !! "VERIFY_EMAIL_URL") +:+ "/?userId=" +:+ _id user
                  +:+ "&code=" +:+ code |}
    {| default_subject := "Please verify your email";
       default_html := "<p>Please verify your email with code: " +:+ code +:+ "</p>" |}.

(** [sendPasswordResetEmail(user, code)] *)
Definition sendPasswordResetEmail (e : env) (user : BaseUser) (code : string)
  : M event texn unit :=
  let resetUrl := show (e !! "FRONTEND_ENDPOINT") +:+ "/complete-password-reset?code="
                  +:+ code in
  let template := t ← templates; passwordReset t in
  sendTemplateEmail (email user) template
    {| cv_user := user; cv_code := code;
       cv_link := show (e !! "RESET_PASSWORD_EMAIL_URL") +:+ "/?code=" +:+ code |}
    {| default_subject := "Password Reset Request";
       default_html :=
         "<p>To reset your password, please click the following link: <a href="
         +:+ dq +:+ resetUrl +:+ dq +:+ ">" +:+ resetUrl +:+ "</a></p>" |}.

(** [sendNewSubscriptionEmail(user, type)] *)
Definition sendNewSubscriptionEmail (user : BaseUser) (type : string)
  : M event texn unit :=
  let template := t ← templates; m ← newSubscription t; property m type in
  match template with
  | None => mret tt
  | Some _ =>
      sendTemplateEmail (email user) template
        {| cv_user := user; cv_code := ""; cv_link := "" |}
        {| default_subject := "Subscription Confirmation - " +:+ type;
           default_html := "<p>Thank you for subscribing to " +:+ type +:+ "!</p>" |}
  end.

(** The default body of the failed-payment notice. *)
Definition failedPaymentHtml (user : BaseUser) (failureReason amount paymentFixUrl : string)
  : string :=
  "<p>Hi " +:+ or_str (name user) "there" +:+ ",</p>" +:+ nl
  +:+ "<p>We noticed that your recent payment of " +:+ amount
  +:+ " couldn't be processed successfully.</p>" +:+ nl
  +:+ "<p>Here's what happened: " +:+ failureReason +:+ "</p>" +:+ nl
  +:+ "<p>To keep your service running smoothly, please update your payment details here: "
  +:+ paymentFixUrl +:+ "</p>" +:+ nl
  +:+ "<p>We know things happen - cards expire, limits change. This is just a friendly reminder to update your information so you don't experience any interruption in service.</p>"
  +:+ nl
  +:+ "<p>Need help? Just reply to this email and we'll sort it out together.</p>" +:+ nl
  +:+ "<p>Thanks for being a valued customer!</p>".

(** [sendFailedPaymentEmail(user, failureReason, amount, paymentFixUrl)] *)
Definition sendFailedPaymentEmail (user : BaseUser)
    (failureReason amount paymentFixUrl : string) : M event texn unit :=
  if negb (truthy (Some (email user))) then
    emit (LoggerWarn "Cannot send failed payment email: no email address provided")
  else
    let template := t ← templates; failedPayment t in
    sendTemplateEmail (email user) template
      {| fp_user := user; fp_failureReason := failureReason; fp_amount := amount;
         fp_paymentFixUrl := paymentFixUrl |}
      {| default_subject := "Quick action needed for your subscription";
         default_html := failedPaymentHtml user failureReason amount paymentFixUrl |}.

End Methods.

(** Whether an event hands a message to a provider for exactly the
    recipient [to], without unsubscribe headers; events that are not calls
    of a provider pass. *)
Definition plain_message_to (to : string) (ev : event) : Prop :=
  match ev with
  | MailerSendCall _ p => recipient_email <$> ep_to p = [to]
  | SendGridCall m => sg_to m = [to] ∧ sg_headers m = None
  | SesCall _ p => ToAddresses p = [to] ∧ Headers p = None
  | _ => True
  end.

End Templates.

(** ** Vocabulary of the further properties *)

Module Props.

(** Whether the character [c] occurs in [s]. *)
Fixpoint occurs (c : ascii) (s : string) : bool :=
  match s with
  | EmptyString => false
  | String a rest => Ascii.eqb a c || occurs c rest
  end.

(** The provider that [sendEmail] turns to, by the fields of the instance. *)
Definition served_by (this : Email.EmailService) : list Email.provider :=
  match Email.mailerSendClient this with
  | Some _ => [Email.MailerSendP]
  | None =>
      if Email.sendGridEnabled this then [Email.SendGridP]
      else match Email.sesClient this with
           | Some _ => [Email.SesP]
           | None => []
           end
  end.

(** The three secrets that the constructor of [EmailService] looks at. *)
Definition provider_secrets : list string :=
  ["MAILERSEND_API_KEY"; "SENDGRID_API_KEY"; "AWS_SES_ACCESS_KEY_ID"].

(** The requests to the siteverify endpoint in a trace. *)
Definition posts (tr : list Turnstile.event) : list (string * list (string * string)) :=
  omap (λ ev, match ev with
              | Turnstile.HttpPost url form => Some (url, form)
              | _ => None
              end) tr.

(** The first truthy value of a list of candidates, [null] when there is
    none. *)
Fixpoint first_truthy (candidates : list (option string)) : option string :=
  match candidates with
  | [] => None
  | c :: rest => if truthy c then c else first_truthy rest
  end.

End Props.

Module TemplateProps.

Import Email Templates.

(** The body that [sendTemplateEmail] computes for a template that is not
    disabled: the rendered Handlebars source when there is one, else the
    result of the [html] function, else the default body. *)
Definition body_of {T} (Handlebars_compile : ∀ T : Type, string → T → outcome string string)
    (t : EmailTemplate T) (vars : T) (defaults : Defaults) : outcome texn string :=
  if truthy (handlebarsHtml t) then
    match Handlebars_compile T (default "" (handlebarsHtml t)) vars with
    | Returned text => Returned text
    | Thrown msg => Thrown (HandlebarsError msg)
    end
  else
    match html t with
    | Some f => Returned (default (default_html defaults) (f vars))
    | None => Thrown (TypeError "template.html is not a function")
    end.

(** The template that [sendNewSubscriptionEmail] finds for a type. *)
Definition subscription_template (templates : option TemplateSet) (type : string)
  : option (EmailTemplate CodeVars) :=
  t ← templates; m ← newSubscription t; property m type.

End TemplateProps.

Module TurnstileProps.

Import Turnstile.

(** The result of [validateTurnstileEnhanced] as a function of the object
    that [validateTurnstile] returned. *)
Definition verdict (Date_getTime : option string → option Z) (now : Z)
    (v : SiteverifyResponse) (ea eh : option string) : TurnstileResult :=
  if negb (success v) then failed_result v
  else if truthy ea && strict_ne (action v) ea
  then mismatch_result "action_mismatch" ea (action v)
  else if truthy eh && strict_ne (hostname v) eh
  then mismatch_result "hostname_mismatch" eh (hostname v)
  else valid_result Date_getTime now v.

(** The value that [validateTurnstile] returns for an answer of the
    network. *)
Definition validation_of (answer : reply string (reply string body)) : body :=
  match answer with
  | Resolves (Resolves b) => b
  | _ => Fields internal_error
  end.

(** How [validateTurnstileEnhanced] ends on the value that
    [validateTurnstile] returned. *)
Definition outcome_of (Date_getTime : option string → option Z) (now : Z)
    (b : body) (ea eh : option string) : outcome exn TurnstileResult :=
  match b with
  | Null => Thrown (TypeError "Cannot read properties of null (reading 'success')")
  | Fields v => Returned (verdict Date_getTime now v ea eh)
  end.

(** The warning, if any, that [validateTurnstileEnhanced] prints on the
    value that [validateTurnstile] returned. *)
Definition warning_of (Date_getTime : option string → option Z) (now : Z)
    (b : body) (ea eh : option string) : list event :=
  match b with
  | Null => []
  | Fields v =>
      if valid (verdict Date_getTime now v ea eh)
         && number_gt (ageMinutes Date_getTime now v) 4
      then [ConsoleWarnTokenAge (ageMinutes Date_getTime now v)] else []
  end.

(** The headers and the address from which the controller takes the client
    address, in the order in which it looks at them. *)
Definition ip_candidates (req : Request) : list (option string) :=
  [headers req !! "cf-connecting-ip"; headers req !! "x-forwarded-for"; ip req].

(** The warnings about the age of a token in a trace. *)
Definition age_warnings (tr : list event) : list number :=
  omap (λ ev, match ev with ConsoleWarnTokenAge a => Some a | _ => None end) tr.

End TurnstileProps.

(** ** Concrete inputs used by the examples below *)

Module Examples.

Import Email.

Definition config : EmailConfigOptions :=
  {| from := "test@example.com"; senderName := None |}.

Definition named_config : EmailConfigOptions :=
  {| from := "Test Sender <test@example.com>"; senderName := None |}.

Definition smtp_down : ProviderError :=
  {| err_message := "connect ETIMEDOUT"; err_response := None |}.

(** Every provider rejects every request. *)
Definition all_reject : Providers :=
  {| mailersend := λ _ _, Rejects smtp_down;
     sendgrid := λ _, Rejects smtp_down;
     ses := λ _ _, Rejects smtp_down |}.

(** Every provider accepts every request. *)
Definition all_accept : Providers :=
  {| mailersend := λ _ _, Resolves tt;
     sendgrid := λ _, Resolves tt;
     ses := λ _ _, Resolves (Some "0100018f-msg") |}.

Definition mailersend_service : EmailService :=
  {| emailConfig := config; sesClient := None; sendGridEnabled := false;
     mailerSendClient := Some {| apiKey := "mlsn.test-key" |} |}.

Definition unconfigured_service : EmailService :=
  {| emailConfig := config; sesClient := None; sendGridEnabled := false;
     mailerSendClient := None |}.

Definition mailersend_env : env :=
  {[ "MAILERSEND_API_KEY" := "mlsn.test-key" ]}.

Definition sendgrid_env : env :=
  {[ "SENDGRID_API_KEY" := "SG.test-key" ]}.

Definition ses_env : env :=
  <[ "AWS_SES_ACCESS_KEY_ID" := "test-access-key" ]>
  (<[ "AWS_SES_SECRET_ACCESS_KEY" := "test-secret-key" ]>
  {[ "AWS_SES_REGION" := "us-east-1" ]}).

Import Turnstile.

(** A clock and a date parser for the examples: challenge timestamps are
    written as a number of hours after the epoch. *)
Definition parse_date (ts : option string) : option Z :=
  match ts with
  | Some "1970-01-01T00:00:00.000Z" => Some 0%Z
  | Some "1970-01-01T01:00:00.000Z" => Some 3600000%Z
  | _ => None
  end.

Definition url_hostname (s : string) : option string :=
  if String.eqb s "https://example.com" then Some "example.com"
  else if String.eqb s "file:///srv/app" then Some ""
  else None.

Definition passed (act : string) : SiteverifyResponse :=
  {| success := true; error_codes := None; action := Some act;
     hostname := Some "example.com";
     challenge_ts := Some "1970-01-01T00:00:00.000Z" |}.

(** The endpoint answers with the given object. *)
Definition answers (v : SiteverifyResponse) : Http :=
  {| fetch := λ _ _, Resolves (Resolves (Fields v)) |}.

(** The endpoint answers with the JSON value [null]. *)
Definition answers_null : Http :=
  {| fetch := λ _ _, Resolves (Resolves Null) |}.

(** The constructor of the SES client of the examples: it refuses an empty
    region, and nothing else. *)
Definition new_SESClient : Email.SESClientConstructor :=
  λ config, match Email.region config with
            | Some "" => Some "Region is missing"
            | _ => None
            end.

Definition empty_mailersend_env : env :=
  <[ "MAILERSEND_API_KEY" := "" ]> {[ "SENDGRID_API_KEY" := "SG.test-key" ]}.

Definition empty_region_env : env := <[ "AWS_SES_REGION" := "" ]> ses_env.

(** The connection fails. *)
Definition offline : Http :=
  {| fetch := λ _ _, Rejects "fetch failed" |}.

Definition request : Request :=
  {| headers := {[ "cf-connecting-ip" := "1.2.3.4" ]}; ip := Some "5.6.7.8" |}.

Definition frontend_env : env := {[ "FRONTEND_ENDPOINT" := "https://example.com" ]}.

Definition rejected_result : TurnstileResult :=
  {| valid := false; reason := Some "turnstile_failed";
     errors := Some ["invalid-input-response"]; expected := None;
     received := None; data := None; tokenAge := None |}.

Definition stub (r : TurnstileResult) : Validator := λ _ _ _ _, mret r.

Import TokenService.

(** A login at time 0 and two rotations, with refresh tokens that live ten
    time units and access tokens that live three: token 0 is superseded by
    token 1, token 1 by token 2. The tokens are live when they are presented,
    so the order of the checks of [refresh] makes no difference here. *)
Definition rotated_twice : store :=
  run 10 3 true [] [Issue 0 7; Refresh 1 0; Refresh 9 1].

(** A project owned by user 1, and two users. *)
Record User := { user_id : nat; user_name : string }.
Record Project := { project_owner : nat; project_name : string }.

Definition alice : User := {| user_id := 1; user_name := "alice" |}.
Definition bob : User := {| user_id := 2; user_name := "bob" |}.
Definition project : Project := {| project_owner := 1; project_name := "roadmap" |}.

End Examples.

Module Fixtures.

Import Email Templates.

(** A renderer for the examples: it answers the source itself. *)
Definition render (T : Type) (source : string) (vars : T) : outcome string string :=
  Returned source.

Definition hbs_template (h : option (unit → option string)) : EmailTemplate unit :=
  {| disabled := false; handlebarsHtml := Some "<p>Hello {{name}}</p>"; html := h;
     subject := Some (λ _, None) |}.

Definition no_subscription_templates : TemplateSet :=
  {| welcome := None; verification := None; passwordReset := None;
     newSubscription := Some ∅; failedPayment := None |}.

Definition carol : BaseUser :=
  {| _id := "64f0c0ffee"; email := "carol@example.com"; name := None |}.

End Fixtures.

(** * Properties *)

(** ** Email transport *)

Module EmailFacts.

Import Email.

(** The request builders on the inputs of the unit tests. *)
Example sender_from_formatted_config :
  ep_from (mailerSendParams Examples.named_config ["recipient@example.com"] "Test Subject" "<p>Test Body</p>")
  = {| sender_email := "test@example.com"; sender_name := "NailVision" |}.
Proof. reflexivity. Qed.

Example recipient_name_is_local_part :
  ep_to (mailerSendParams Examples.config ["recipient@example.com"] "s" "b")
  = [{| recipient_email := "recipient@example.com"; recipient_name := "recipient" |}].
Proof. reflexivity. Qed.

Example sendgrid_message_of_test :
  sendGridMsg Examples.config ["recipient@example.com"] "Test Subject" "<p>Test Body</p>" None
  = {| sg_to := ["recipient@example.com"]; sg_from := "test@example.com";
       sg_subject := "Test Subject"; sg_html := "<p>Test Body</p>"; sg_headers := None |}.
Proof. reflexivity. Qed.

Example constructor_mailersend :
  result (constructor Examples.new_SESClient Examples.mailersend_env Examples.config)
  = Returned Examples.mailersend_service.
Proof. vm_compute. reflexivity. Qed.

Example constructor_ses :
  constructor Examples.new_SESClient Examples.ses_env Examples.config
  = ([], Returned {| emailConfig := Examples.config;
                     sesClient := Some {| region := Some "us-east-1";
                                          accessKeyId := "test-access-key";
                                          secretAccessKey := Some "test-secret-key" |};
                     sendGridEnabled := false; mailerSendClient := None |}).
Proof. vm_compute. reflexivity. Qed.

Example sendEmail_via_mailersend :
  sendEmail Examples.all_accept Examples.mailersend_service
    ["recipient@example.com"] "Test Subject" "<p>Test Body</p>" None
  = ([MailerSendCall {| apiKey := "mlsn.test-key" |}
        (mailerSendParams Examples.config ["recipient@example.com"]
           "Test Subject" "<p>Test Body</p>");
      LoggerLog "Email sent to recipient@example.com via MailerSend"],
     Returned tt).
Proof. reflexivity. Qed.

Example sendgrid_unsubscribe_headers :
  sg_headers (sendGridMsg Examples.config ["recipient@example.com"] "Test Subject"
                "<p>Test Body</p>" (Some "https://example.com/unsubscribe"))
  = Some [("List-Unsubscribe",
           "<mailto:test@example.com?subject=unsubscribe>, <https://example.com/unsubscribe>");
          ("List-Unsubscribe-Post", "List-Unsubscribe=One-Click")].
Proof. reflexivity. Qed.

(** What [sendEmail] does when the provider that serves the call rejects. *)

Lemma sendEmail_mailersend_rejected w this client to subject body unsub e :
  mailerSendClient this = Some client →
  mailersend w client (mailerSendParams (emailConfig this) to subject body) = Rejects e →
  sendEmail w this to subject body unsub
  = ([MailerSendCall client (mailerSendParams (emailConfig this) to subject body);
      LoggerError "Failed to send email via MailerSend:" (Some (Rejected e))],
     Thrown (Error "Failed to send email via MailerSend")).
Proof. intros Hc Hr. unfold sendEmail. rewrite Hc. cbn. rewrite Hr. reflexivity. Qed.

Lemma sendEmail_sendgrid_rejected w this to subject body unsub e :
  mailerSendClient this = None →
  sendGridEnabled this = true →
  sendgrid w (sendGridMsg (emailConfig this) to subject body unsub) = Rejects e →
  trace (sendEmail w this to subject body unsub)
  = [ConsoleLogMsg "Sending email via SendGrid" (sendGridMsg (emailConfig this) to subject body unsub);
     SendGridCall (sendGridMsg (emailConfig this) to subject body unsub);
     LoggerError "Failed to send email via SendGrid:" (Some (Rejected e))]
    ++ match err_response e with Some b => [LoggerError b None] | None => [] end
  ∧ result (sendEmail w this to subject body unsub)
    = Thrown (Error "Failed to send email via SendGrid").
Proof.
  intros Hc Hg Hr. unfold sendEmail. rewrite Hc, Hg. cbn. rewrite Hr. cbn.
  destruct (err_response e); split; reflexivity.
Qed.

Lemma sendEmail_ses_rejected w this client to subject body unsub e :
  mailerSendClient this = None →
  sendGridEnabled this = false →
  sesClient this = Some client →
  ses w client (sesParams (emailConfig this) to subject body unsub) = Rejects e →
  sendEmail w this to subject body unsub
  = ([SesCall client (sesParams (emailConfig this) to subject body unsub);
      LoggerError "Failed to send email:" (Some (Rejected e))],
     Thrown (Error "Failed to send email")).
Proof.
  intros Hc Hg Hs Hr. unfold sendEmail. rewrite Hc, Hg, Hs. cbn. rewrite Hr.
  reflexivity.
Qed.

Lemma sendEmail_contacts_active w this to subject body unsub :
  contacted (trace (sendEmail w this to subject body unsub)) = active_providers this
  ∨ (contacted (trace (sendEmail w this to subject body unsub)) = [MailerSendP]
     ∧ mailerSendClient this ≠ None)
  ∨ (contacted (trace (sendEmail w this to subject body unsub)) = [SendGridP]
     ∧ sendGridEnabled this = true).
Proof.
  unfold sendEmail, active_providers.
  destruct (mailerSendClient this) as [c|] eqn:Hc.
  - right; left. split; [|discriminate]. cbn.
    destruct (mailersend w c _); reflexivity.
  - destruct (sendGridEnabled this) eqn:Hg.
    + right; right. split; [|reflexivity]. cbn.
      destruct (sendgrid w _) as [|e]; [reflexivity|]. cbn.
      destruct (err_response e); reflexivity.
    + left. destruct (sesClient this) as [c|]; [|reflexivity]. cbn.
      destruct (ses w c _); reflexivity.
Qed.

(** C1, as stated, fails: with a MailerSend client whose send is rejected,
    [sendEmail] logs the failure and then throws; it does not return. *)
Lemma sendEmail_failure_is_thrown :
  delivery_failure Examples.all_reject Examples.mailersend_service
    ["recipient@example.com"] "Test Subject" "<p>Test Body</p>" None
  = Some (MailerSendP, Examples.smtp_down)
  ∧ result (sendEmail Examples.all_reject Examples.mailersend_service
              ["recipient@example.com"] "Test Subject" "<p>Test Body</p>" None)
    = Thrown (Error "Failed to send email via MailerSend")
  ∧ returns (sendEmail Examples.all_reject Examples.mailersend_service
               ["recipient@example.com"] "Test Subject" "<p>Test Body</p>" None)
    = false.
Proof. repeat split; reflexivity. Qed.

(** C1, amended: for every call to [sendEmail] in which the provider that
    serves the call (MailerSend, SendGrid or SES) rejects the request, the
    failure is logged with [logger.error] together with the rejection, and
    [sendEmail] then throws an [Error] whose message names the failed
    delivery: the failure is raised to the caller, not returned. *)
Theorem sendEmail_failure_logged_then_thrown w this to subject body unsub p e :
  delivery_failure w this to subject body unsub = Some (p, e) →
  LoggerError (failure_message p +:+ ":") (Some (Rejected e))
    ∈ trace (sendEmail w this to subject body unsub)
  ∧ result (sendEmail w this to subject body unsub) = Thrown (Error (failure_message p))
  ∧ contacted (trace (sendEmail w this to subject body unsub)) = [p].
Proof.
  unfold delivery_failure. intros H.
  destruct (mailerSendClient this) as [c|] eqn:Hc.
  - destruct (mailersend w c _) as [|e'] eqn:Hr; [discriminate|].
    simplify_eq.
    rewrite (sendEmail_mailersend_rejected _ _ _ _ _ _ unsub _ Hc Hr). cbn.
    split; [set_solver|]. split; reflexivity.
  - destruct (sendGridEnabled this) eqn:Hg.
    + destruct (sendgrid w _) as [|e'] eqn:Hr; [discriminate|].
      simplify_eq.
      destruct (sendEmail_sendgrid_rejected _ _ _ _ _ _ _ Hc Hg Hr) as [Ht Ho].
      rewrite Ht, Ho. split; [set_solver|]. split; [reflexivity|].
      destruct (err_response _); reflexivity.
    + destruct (sesClient this) as [c|] eqn:Hs; [|discriminate].
      destruct (ses w c _) as [|e'] eqn:Hr; [discriminate|].
      simplify_eq.
      rewrite (sendEmail_ses_rejected _ _ _ _ _ _ _ _ Hc Hg Hs Hr). cbn.
      split; [set_solver|]. split; reflexivity.
Qed.

Lemma sendEmail_failure_logged_then_thrown_witness :
  LoggerError "Failed to send email:" (Some (Rejected Examples.smtp_down))
    ∈ trace (sendEmail Examples.all_reject
               {| emailConfig := Examples.config;
                  sesClient := Some {| region := Some "us-east-1";
                                       accessKeyId := "test-access-key";
                                       secretAccessKey := Some "test-secret-key" |};
                  sendGridEnabled := false; mailerSendClient := None |}
               ["recipient@example.com"] "Test Subject" "<p>Test Body</p>" None)
  ∧ result (sendEmail Examples.all_reject
               {| emailConfig := Examples.config;
                  sesClient := Some {| region := Some "us-east-1";
                                       accessKeyId := "test-access-key";
                                       secretAccessKey := Some "test-secret-key" |};
                  sendGridEnabled := false; mailerSendClient := None |}
               ["recipient@example.com"] "Test Subject" "<p>Test Body</p>" None)
    = Thrown (Error "Failed to send email")
  ∧ contacted (trace (sendEmail Examples.all_reject
               {| emailConfig := Examples.config;
                  sesClient := Some {| region := Some "us-east-1";
                                       accessKeyId := "test-access-key";
                                       secretAccessKey := Some "test-secret-key" |};
                  sendGridEnabled := false; mailerSendClient := None |}
               ["recipient@example.com"] "Test Subject" "<p>Test Body</p>" None))
    = [SesP].
Proof.
  apply (sendEmail_failure_logged_then_thrown Examples.all_reject _ _ _ _ None SesP
           Examples.smtp_down).
  reflexivity.
Defined.

(** C6: when no provider is configured (no MailerSend client, SendGrid
    disabled, no SES client), [sendEmail] returns without error for every
    input; it hands the message to no provider, logs a warning and prints
    the recipient list, the subject and the body to the console. *)
Theorem sendEmail_unconfigured_logs_and_returns w this to subject body unsub :
  mailerSendClient this = None →
  sendGridEnabled this = false →
  sesClient this = None →
  sendEmail w this to subject body unsub
  = ([LoggerWarn "AWS SES and SendGrid not configured, email not sent.";
      ConsoleLog (nl +:+ nl +:+ "To: " +:+ Str.join ", " to);
      ConsoleLog ("Subject: " +:+ subject);
      ConsoleLog (body +:+ nl +:+ nl)],
     Returned tt)
  ∧ contacted (trace (sendEmail w this to subject body unsub)) = [].
Proof.
  intros Hc Hg Hs. unfold sendEmail. rewrite Hc, Hg, Hs. split; reflexivity.
Qed.

Lemma sendEmail_unconfigured_logs_and_returns_witness :
  sendEmail Examples.all_reject Examples.unconfigured_service
    ["a@x.com"; "b@x.com"] "Hello" "<p>Hi</p>" (Some "https://example.com/unsubscribe")
  = ([LoggerWarn "AWS SES and SendGrid not configured, email not sent.";
      ConsoleLog (nl +:+ nl +:+ "To: a@x.com, b@x.com");
      ConsoleLog "Subject: Hello";
      ConsoleLog ("<p>Hi</p>" +:+ nl +:+ nl)],
     Returned tt)
  ∧ contacted (trace (sendEmail Examples.all_reject Examples.unconfigured_service
                        ["a@x.com"; "b@x.com"] "Hello" "<p>Hi</p>"
                        (Some "https://example.com/unsubscribe"))) = [].
Proof.
  apply (sendEmail_unconfigured_logs_and_returns Examples.all_reject
           Examples.unconfigured_service ["a@x.com"; "b@x.com"] "Hello" "<p>Hi</p>"
           (Some "https://example.com/unsubscribe")); reflexivity.
Defined.

Lemma secret_Some e k key :
  secret e k = Some key ↔ e !! k = Some key ∧ key ≠ "".
Proof.
  unfold secret, truthy. destruct (e !! k) as [v|]; [|split; [discriminate|intros [? _]; discriminate]].
  destruct (String.eqb_spec v "") as [->|Hne]; cbn; split.
  - discriminate.
  - intros [[= <-] Hk]. contradiction.
  - intros [= <-]. split; [reflexivity|exact Hne].
  - intros [Hv _]. exact Hv.
Qed.

Lemma contacted_eq_active w this to subject body unsub :
  (List.length (active_providers this) ≤ 1)%nat →
  contacted (trace (sendEmail w this to subject body unsub)) = active_providers this.
Proof.
  intros Hle.
  destruct (sendEmail_contacts_active w this to subject body unsub)
    as [H|[[H Hn]|[H Hg]]]; [exact H| |]; rewrite H; clear H;
    unfold active_providers in *;
    destruct (mailerSendClient this), (sendGridEnabled this), (sesClient this);
    cbn in *; try reflexivity; try congruence; lia.
Qed.

(** C2, as stated, fails. A secret that is set to the empty string does not
    select its provider: with [MAILERSEND_API_KEY] set to the empty string
    and a SendGrid key, SendGrid is enabled and no MailerSend client is
    created. And a set [AWS_SES_ACCESS_KEY_ID] does not always give an SES
    client: where the constructor of the SES client throws, as it does for an
    empty [AWS_SES_REGION], the constructor of [EmailService] throws and
    there is no instance. *)
Lemma set_secret_without_its_provider :
  Examples.empty_mailersend_env !! "MAILERSEND_API_KEY" = Some ""
  ∧ constructor Examples.new_SESClient Examples.empty_mailersend_env Examples.config
    = ([SgSetApiKey "SG.test-key"],
       Returned {| emailConfig := Examples.config; sesClient := None;
                   sendGridEnabled := true; mailerSendClient := None |})
  ∧ Examples.empty_region_env !! "AWS_SES_ACCESS_KEY_ID" = Some "test-access-key"
  ∧ constructor Examples.new_SESClient Examples.empty_region_env Examples.config
    = ([], Thrown (Error "Region is missing")).
Proof. repeat split; vm_compute; reflexivity. Qed.

(** C2, amended: the constructor selects at most one provider, once, by the
    first secret that is set to a non-empty value ([secret]), in the order
    MailerSend, SendGrid, SES. With [MAILERSEND_API_KEY] it creates a
    MailerSend client with that key; otherwise with [SENDGRID_API_KEY] it
    hands the key to SendGrid and enables it; otherwise with
    [AWS_SES_ACCESS_KEY_ID] it constructs an SES client from
    [AWS_SES_REGION] and the two SES credentials, and when that construction
    throws, the constructor throws the same error and there is no instance;
    with none of the three, no provider is active. In every instance that is
    constructed at most one of the three is active, and every later
    [sendEmail] on the instance hands its message to exactly the active
    ones, whatever the providers answer. *)
Theorem constructor_selects_one_provider (new_SESClient : SESClientConstructor)
    (e : env) (cfg : EmailConfigOptions) :
  (∀ key, secret e "MAILERSEND_API_KEY" = Some key →
     constructor new_SESClient e cfg
     = ([], Returned {| emailConfig := cfg; sesClient := None;
                        sendGridEnabled := false;
                        mailerSendClient := Some {| apiKey := key |} |}))
  ∧ (∀ key, secret e "MAILERSEND_API_KEY" = None →
       secret e "SENDGRID_API_KEY" = Some key →
       constructor new_SESClient e cfg
       = ([SgSetApiKey key],
          Returned {| emailConfig := cfg; sesClient := None;
                      sendGridEnabled := true; mailerSendClient := None |}))
  ∧ (∀ id, secret e "MAILERSEND_API_KEY" = None →
       secret e "SENDGRID_API_KEY" = None →
       secret e "AWS_SES_ACCESS_KEY_ID" = Some id →
       constructor new_SESClient e cfg
       = match new_SESClient {| region := e !! "AWS_SES_REGION"; accessKeyId := id;
                                secretAccessKey := e !! "AWS_SES_SECRET_ACCESS_KEY" |} with
         | None =>
             ([], Returned {| emailConfig := cfg;
                              sesClient :=
                                Some {| region := e !! "AWS_SES_REGION";
                                        accessKeyId := id;
                                        secretAccessKey :=
                                          e !! "AWS_SES_SECRET_ACCESS_KEY" |};
                              sendGridEnabled := false; mailerSendClient := None |})
         | Some message => ([], Thrown (Error message))
         end)
  ∧ (secret e "MAILERSEND_API_KEY" = None →
       secret e "SENDGRID_API_KEY" = None →
       secret e "AWS_SES_ACCESS_KEY_ID" = None →
       constructor new_SESClient e cfg
       = ([], Returned {| emailConfig := cfg; sesClient := None;
                          sendGridEnabled := false; mailerSendClient := None |}))
  ∧ ∀ this, result (constructor new_SESClient e cfg) = Returned this →
      emailConfig this = cfg
      ∧ (List.length (active_providers this) ≤ 1)%nat
      ∧ ∀ w to subject body unsub,
          contacted (trace (sendEmail w this to subject body unsub))
          = active_providers this.
Proof.
  unfold constructor.
  destruct (secret e "MAILERSEND_API_KEY") as [k1|] eqn:H1;
    [|destruct (secret e "SENDGRID_API_KEY") as [k2|] eqn:H2;
      [|destruct (secret e "AWS_SES_ACCESS_KEY_ID") as [k3|] eqn:H3;
        [destruct (new_SESClient _) as [message|] eqn:Hsdk|]]];
    repeat first [apply conj | intros ?];
    try discriminate; simplify_eq; try reflexivity;
    repeat match goal with
           | H : result _ = Returned _ |- _ => cbn in H; simplify_eq
           end;
    try reflexivity; try (rewrite Hsdk; reflexivity);
    try (apply contacted_eq_active); cbn; lia.
Qed.

Lemma constructor_selects_one_provider_witness :
  constructor Examples.new_SESClient Examples.sendgrid_env Examples.config
  = ([SgSetApiKey "SG.test-key"],
     Returned {| emailConfig := Examples.config; sesClient := None;
                 sendGridEnabled := true; mailerSendClient := None |}).
Proof.
  destruct (constructor_selects_one_provider Examples.new_SESClient
              Examples.sendgrid_env Examples.config) as (_ & Hsg & _).
  apply Hsg; vm_compute; reflexivity.
Defined.

End EmailFacts.

(** ** Turnstile *)

Module TurnstileFacts.

Import Turnstile.

Lemma strict_ne_true (a b : option string) : strict_ne a b = true ↔ a ≠ b.
Proof.
  destruct a as [x|], b as [y|]; cbn; try (split; [discriminate|congruence]);
    try (split; [intros _; discriminate|reflexivity]).
  destruct (String.eqb_spec x y); cbn; split; congruence.
Qed.

Lemma strict_ne_false (a b : option string) : strict_ne a b = false ↔ a = b.
Proof.
  destruct (strict_ne a b) eqn:H.
  - apply strict_ne_true in H. split; [discriminate|contradiction].
  - split; [intros _|reflexivity].
    destruct (decide (a = b)) as [|Hne]; [assumption|].
    apply strict_ne_true in Hne. congruence.
Qed.

(** [validateTurnstile] never throws: it returns the parsed value, or the
    internal-error object when the request or the parsing failed. *)
Lemma validateTurnstile_cases secretKey w token remoteip :
  (∃ b, fetch w siteverify_url (formData secretKey token remoteip) = Resolves (Resolves b)
        ∧ validateTurnstile secretKey w token remoteip
          = ([HttpPost siteverify_url (formData secretKey token remoteip)], Returned b))
  ∨ (∃ e, (fetch w siteverify_url (formData secretKey token remoteip) = Rejects e
           ∧ validateTurnstile secretKey w token remoteip
             = ([HttpPost siteverify_url (formData secretKey token remoteip);
                 ConsoleError "Turnstile validation error:" (FetchError e)],
                Returned (Fields internal_error)))
          ∨ (fetch w siteverify_url (formData secretKey token remoteip) = Resolves (Rejects e)
             ∧ validateTurnstile secretKey w token remoteip
               = ([HttpPost siteverify_url (formData secretKey token remoteip);
                   ConsoleError "Turnstile validation error:" (JsonError e)],
                  Returned (Fields internal_error)))).
Proof.
  unfold validateTurnstile.
  destruct (fetch w siteverify_url (formData secretKey token remoteip)) as [[v|e]|e];
    cbn; eauto 6.
Qed.


Section Service.

Variable Date_getTime : option string → option Z.

(** The result and the trace of [validateTurnstileEnhanced] in terms of what
    [validateTurnstile] returned. *)
Lemma enhanced_unfold secretKey w now token remoteip ea eh tr v :
  validateTurnstile secretKey w token remoteip = (tr, Returned (Fields v)) →
  validateTurnstileEnhanced Date_getTime secretKey w now token remoteip ea eh
  = if negb (success v) then (tr, Returned (failed_result v))
    else if truthy ea && strict_ne (action v) ea
    then (tr, Returned (mismatch_result "action_mismatch" ea (action v)))
    else if truthy eh && strict_ne (hostname v) eh
    then (tr, Returned (mismatch_result "hostname_mismatch" eh (hostname v)))
    else (tr ++ (if number_gt (ageMinutes Date_getTime now v) 4
                 then [ConsoleWarnTokenAge (ageMinutes Date_getTime now v)] else []),
          Returned (valid_result Date_getTime now v)).
Proof.
  intros Hv. unfold validateTurnstileEnhanced. rewrite Hv.
  unfold mbind, M_bind, bind.
  destruct (negb (success v)); [cbn; by rewrite app_nil_r|].
  destruct (truthy ea && strict_ne (action v) ea); [cbn; by rewrite app_nil_r|].
  destruct (truthy eh && strict_ne (hostname v) eh); [cbn; by rewrite app_nil_r|].
  destruct (number_gt (ageMinutes Date_getTime now v) 4); reflexivity.
Qed.

(** On a body that is [null] the property read throws. *)
Lemma enhanced_unfold_null secretKey w now token remoteip ea eh tr :
  validateTurnstile secretKey w token remoteip = (tr, Returned Null) →
  validateTurnstileEnhanced Date_getTime secretKey w now token remoteip ea eh
  = (tr, Thrown (TypeError "Cannot read properties of null (reading 'success')")).
Proof.
  intros Hv. unfold validateTurnstileEnhanced. rewrite Hv.
  unfold mbind, M_bind, bind. cbn. by rewrite app_nil_r.
Qed.

(** An expectation is met when it is not checked (absent or empty) or when
    the answer carries the expected value. *)
Lemma check_passes (want got : option string) :
  truthy want && strict_ne got want = false ↔ truthy want = false ∨ got = want.
Proof.
  rewrite andb_false_iff, strict_ne_false. reflexivity.
Qed.



(** C4: when the request to the siteverify endpoint throws (the connection
    fails, or the body of the response does not parse),
    [validateTurnstileEnhanced] does not throw: the error is printed and the
    result is invalid, with reason [turnstile_failed] and the single error
    code [internal-error]. *)
Theorem validateTurnstileEnhanced_fails_closed secretKey w now token remoteip ea eh :
  (∃ e, fetch w siteverify_url (formData secretKey token remoteip) = Rejects e
        ∨ fetch w siteverify_url (formData secretKey token remoteip) = Resolves (Rejects e)) →
  result (validateTurnstileEnhanced Date_getTime secretKey w now token remoteip ea eh)
  = Returned {| valid := false; reason := Some "turnstile_failed";
                errors := Some ["internal-error"]; expected := None;
                received := None; data := None; tokenAge := None |}
  ∧ ∃ error, trace (validateTurnstileEnhanced Date_getTime secretKey w now token remoteip ea eh)
             = [HttpPost siteverify_url (formData secretKey token remoteip);
                ConsoleError "Turnstile validation error:" error].
Proof.
  intros [e He].
  destruct (validateTurnstile_cases secretKey w token remoteip)
    as [(v & Hf & _)|(e' & [[Hf Hv]|[Hf Hv]])].
  - destruct He; congruence.
  - rewrite (enhanced_unfold _ _ now _ _ ea eh _ _ Hv). cbn. eauto.
  - rewrite (enhanced_unfold _ _ now _ _ ea eh _ _ Hv). cbn. eauto.
Qed.


End Service.



Lemma validateTurnstileEnhanced_fails_closed_witness :
  result (validateTurnstileEnhanced Examples.parse_date (Some "secret")
            Examples.offline 0 "token123" None (Some "signup") (Some "example.com"))
  = Returned {| valid := false; reason := Some "turnstile_failed";
                errors := Some ["internal-error"]; expected := None;
                received := None; data := None; tokenAge := None |}.
Proof.
  apply (validateTurnstileEnhanced_fails_closed Examples.parse_date (Some "secret")
           Examples.offline 0 "token123" None (Some "signup") (Some "example.com")).
  exists "fetch failed". left. reflexivity.
Defined.


Section Controller.

Variable URL_hostname : string → option string.

(** The controller once the frontend URL has parsed: one call to the
    validator, then the decision on its result. *)
Lemma handleFormSubmission_unfold (validate : Validator) e req token h :
  URL_hostname (or_str (e !! "FRONTEND_ENDPOINT") "") = Some h →
  handleFormSubmission URL_hostname validate e req token
  = (ValidateCall token (clientIp req) (Some "signup") (Some h)
       :: trace (validate token (clientIp req) (Some "signup") (Some h)),
     match result (validate token (clientIp req) (Some "signup") (Some h)) with
     | Returned r =>
         if valid r then Returned {| ok := true |}
         else Thrown (BadRequestException
                        {| message := "Invalid Turnstile verification";
                           body_reason := reason r; body_errors := errors r |})
     | Thrown x => Thrown x
     end).
Proof.
  intros Hh. unfold handleFormSubmission. rewrite Hh.
  unfold mbind, M_bind, bind, emit, trace, result.
  destruct (validate token (clientIp req) (Some "signup") (Some h)) as [tr [r|x]];
    cbn; [|reflexivity].
  destruct (valid r); cbn; by rewrite app_nil_r.
Qed.

(** C5: [handleFormSubmission] returns [{ok: true}] if and only if the
    validator, called with the submitted token, the client address,
    ['signup'] as expected action and the hostname of the configured frontend
    URL as expected hostname, reports a valid result. Whenever the validator
    reports an invalid result, the handler throws a [BadRequestException]
    whose body carries the message ['Invalid Turnstile verification'], the
    reason of the validator and its error codes. Every call of the validator
    has these arguments. *)
Theorem handleFormSubmission_gate (validate : Validator) e req token :
  (result (handleFormSubmission URL_hostname validate e req token) = Returned {| ok := true |}
   ↔ ∃ h r, URL_hostname (or_str (e !! "FRONTEND_ENDPOINT") "") = Some h
            ∧ result (validate token (clientIp req) (Some "signup") (Some h)) = Returned r
            ∧ valid r = true)
  ∧ (∀ h r, URL_hostname (or_str (e !! "FRONTEND_ENDPOINT") "") = Some h →
            result (validate token (clientIp req) (Some "signup") (Some h)) = Returned r →
            valid r = false →
            result (handleFormSubmission URL_hostname validate e req token)
            = Thrown (BadRequestException
                        {| message := "Invalid Turnstile verification";
                           body_reason := reason r; body_errors := errors r |}))
  ∧ (∀ h, URL_hostname (or_str (e !! "FRONTEND_ENDPOINT") "") = Some h →
          trace (handleFormSubmission URL_hostname validate e req token)
          = ValidateCall token (clientIp req) (Some "signup") (Some h)
              :: trace (validate token (clientIp req) (Some "signup") (Some h)))
  ∧ (URL_hostname (or_str (e !! "FRONTEND_ENDPOINT") "") = None →
     trace (handleFormSubmission URL_hostname validate e req token) = []).
Proof.
  destruct (URL_hostname (or_str (e !! "FRONTEND_ENDPOINT") "")) as [h|] eqn:Hh.
  - rewrite (handleFormSubmission_unfold validate e req token h Hh).
    unfold result at 1, trace at 1. cbn [fst snd].
    split; [|split; [|split]].
    + split.
      * destruct (result (validate token (clientIp req) (Some "signup") (Some h)))
          as [r|x] eqn:Hr; [|discriminate].
        destruct (valid r) eqn:Hv; [|discriminate]. intros _. eauto.
      * intros (h' & r & [= <-] & Hr & Hv). rewrite Hr, Hv. reflexivity.
    + intros h' r [= <-] Hr Hv. unfold result at 1. cbn [snd]. rewrite Hr, Hv. reflexivity.
    + intros h' [= <-]. reflexivity.
    + discriminate.
  - unfold handleFormSubmission. rewrite Hh. cbn.
    split; [|split; [|split]]; try discriminate; try reflexivity.
    split; [discriminate|]. intros (h & r & Hx & _). discriminate.
Qed.

End Controller.

Lemma handleFormSubmission_gate_witness :
  result (handleFormSubmission Examples.url_hostname
            (Examples.stub Examples.rejected_result)
            Examples.frontend_env Examples.request "token123")
  = Thrown (BadRequestException
              {| message := "Invalid Turnstile verification";
                 body_reason := Some "turnstile_failed";
                 body_errors := Some ["invalid-input-response"] |}).
Proof.
  destruct (handleFormSubmission_gate Examples.url_hostname
              (Examples.stub Examples.rejected_result)
              Examples.frontend_env Examples.request "token123")
    as (_ & Hinvalid & _).
  apply (Hinvalid "example.com" Examples.rejected_result).
  - vm_compute. reflexivity.
  - reflexivity.
  - reflexivity.
Defined.

(** The two cases of the controller's tests. *)
Example controller_test_valid :
  handleFormSubmission Examples.url_hostname
    (Examples.stub {| valid := true; reason := None; errors := None;
                      expected := None; received := None; data := None;
                      tokenAge := Some (Num 0) |})
    Examples.frontend_env Examples.request "token123"
  = ([ValidateCall "token123" (Some "1.2.3.4") (Some "signup") (Some "example.com")],
     Returned {| ok := true |}).
Proof. vm_compute. reflexivity. Qed.

End TurnstileFacts.

(** ** Token service *)

Module TokenFacts.

Import TokenService.

Local Open Scope nat_scope.

Section Counting.

Variable p : RefreshRecord → bool.

Lemma count_app (s1 s2 : store) : count p (s1 ++ s2) = count p s1 + count p s2.
Proof. induction s1 as [|r s1 IH]; cbn; [reflexivity|]. rewrite IH. lia. Qed.

Lemma count_insert (s : store) (i : nat) (r r' : RefreshRecord) :
  s !! i = Some r →
  count p (<[i:=r']> s) + (if p r then 1 else 0)
  = count p s + (if p r' then 1 else 0).
Proof.
  revert i. induction s as [|x s IH]; intros [|i] H; try discriminate.
  - cbn in H. injection H as ->. cbn. destruct (p r), (p r'); lia.
  - cbn in H. specialize (IH i H).
    change (<[S i:=r']> (x :: s)) with (x :: <[i:=r']> s). cbn [count].
    revert IH. destruct (p x), (p r), (p r'); lia.
Qed.

Lemma count_none (s : store) :
  (∀ r, r ∈ s → p r = false) → count p s = 0.
Proof.
  induction s as [|x s IH]; intros H; cbn; [reflexivity|].
  rewrite (H x) by set_solver. rewrite IH; [reflexivity|].
  intros r Hr. apply H. set_solver.
Qed.

Lemma count_fmap_le (g : RefreshRecord → RefreshRecord) (s : store) :
  (∀ r, p (g r) = true → p r = true) → count p (g <$> s) ≤ count p s.
Proof.
  intros Hg. induction s as [|x s IH]; cbn; [lia|].
  destruct (p (g x)) eqn:Hx; [rewrite (Hg x Hx)|]; destruct (p x); lia.
Qed.

End Counting.

Lemma count_le (p q : RefreshRecord → bool) (s : store) :
  (∀ r, p r = true → q r = true) → count p s ≤ count q s.
Proof.
  intros Hpq. induction s as [|x s IH]; cbn; [lia|].
  destruct (p x) eqn:Hx; [rewrite (Hpq x Hx)|]; destruct (q x); lia.
Qed.

Lemma family_lt_fresh (s : store) (r : RefreshRecord) :
  r ∈ s → family r < fresh_family s.
Proof.
  unfold fresh_family. induction s as [|x s IH]; intros H; [set_solver|].
  apply elem_of_cons in H as [->|H]; cbn; [lia|]. specialize (IH H). lia.
Qed.

Lemma live_unspent now r : live now r = true → unspent r = true.
Proof. unfold live, unspent. destruct (revoked r), (expired now r), (superseded r); auto. Qed.

Lemma live_in_le_unspent_in now f s : live_in now f s ≤ unspent_in f s.
Proof.
  apply count_le. intros r. rewrite !andb_true_iff.
  intros [Hl Hf]. split; [exact (live_unspent now r Hl)|exact Hf].
Qed.

Lemma set_revoked_spent r : unspent (set_revoked r) = false.
Proof. reflexivity. Qed.

Lemma set_superseded_spent t r : unspent (set_superseded t r) = false.
Proof. unfold unspent. cbn. apply andb_false_r. Qed.

Section Service.

Variables refresh_ttl access_ttl : Z.
Variable reuse_first : bool.

Abbreviation issue := (TokenService.issue refresh_ttl access_ttl).
Abbreviation refresh := (TokenService.refresh refresh_ttl access_ttl reuse_first).
Abbreviation step := (TokenService.step refresh_ttl access_ttl reuse_first).
Abbreviation run := (TokenService.run refresh_ttl access_ttl reuse_first).

Lemma one_branch_empty : one_branch [].
Proof. intros f. cbn. lia. Qed.

Lemma one_branch_revoke s tg : one_branch s → one_branch (revoke s tg).
Proof.
  intros H f. specialize (H f). unfold unspent_in, revoke in *.
  etrans; [|exact H]. apply count_fmap_le.
  intros r. destruct (matches tg r); [|auto].
  rewrite andb_true_iff. intros [Hu _]. rewrite set_revoked_spent in Hu. discriminate.
Qed.

Lemma unspent_in_snoc f (s : store) r :
  unspent_in f (s ++ [r])
  = unspent_in f s + (if unspent r && in_family f r then 1 else 0).
Proof. unfold unspent_in. rewrite count_app. cbn [count]. lia. Qed.

Lemma unspent_in_fresh s : unspent_in (fresh_family s) s = 0.
Proof.
  apply count_none. intros r Hr. apply andb_false_iff. right.
  apply Nat.eqb_neq. pose proof (family_lt_fresh s r Hr). lia.
Qed.

Lemma one_branch_issue s now u : one_branch s → one_branch (issue s now u).1.
Proof.
  intros H f. unfold TokenService.issue. cbn [fst]. rewrite unspent_in_snoc.
  change (unspent (new_record refresh_ttl now u (fresh_family s))) with true.
  change (in_family f (new_record refresh_ttl now u (fresh_family s)))
    with (fresh_family s =? f).
  cbn [andb].
  destruct (Nat.eqb_spec (fresh_family s) f) as [<-|Hne].
  - rewrite unspent_in_fresh. lia.
  - specialize (H f). lia.
Qed.

Lemma one_branch_refresh s now t : one_branch s → one_branch (refresh s now t).1.
Proof.
  intros H. unfold TokenService.refresh.
  destruct (s !! t) as [r|] eqn:Hr; [|exact H].
  destruct (reuse_first && (revoked r || superseded r)); [apply one_branch_revoke, H|].
  destruct (expired now r); [exact H|].
  destruct (revoked r || superseded r) eqn:Hspent; [apply one_branch_revoke, H|].
  apply orb_false_elim in Hspent as [Hrev Hsup].
  intros f. cbn [fst]. rewrite unspent_in_snoc.
  change (unspent (new_record refresh_ttl now (owner r) (family r))) with true.
  change (in_family f (new_record refresh_ttl now (owner r) (family r)))
    with (in_family f r).
  cbn [andb].
  pose proof (count_insert (λ r, unspent r && in_family f r) s t r
                (set_superseded (length s) r) Hr) as Hc.
  cbn beta in Hc. rewrite set_superseded_spent in Hc. cbn [andb] in Hc.
  assert (unspent r = true) as Hu by (unfold unspent; rewrite Hrev, Hsup; reflexivity).
  rewrite Hu in Hc. cbn [andb] in Hc.
  specialize (H f). unfold unspent_in in *.
  destruct (in_family f r); lia.
Qed.

Lemma one_branch_step s o : one_branch s → one_branch (step s o).
Proof.
  destruct o; cbn [TokenService.step];
    auto using one_branch_issue, one_branch_refresh, one_branch_revoke.
Qed.

Lemma one_branch_run ops : ∀ s, one_branch s → one_branch (run s ops).
Proof.
  induction ops as [|o ops IH]; intros s H; [exact H|].
  cbn. apply IH, one_branch_step, H.
Qed.

(** C9: in every store reachable from the empty one by [issue], [refresh]
    and [revoke] steps, at every time, every family has at most one live
    record, in whichever order [refresh] makes its expiry check and its
    reuse check. The invariant holds initially and each of the three
    operations preserves it ([one_branch_issue], [one_branch_refresh],
    [one_branch_revoke]). *)
Theorem at_most_one_live_per_family (ops : list (op)) (now : Z) (f : nat) :
  live_in now f (run [] ops) ≤ 1.
Proof.
  etrans; [apply live_in_le_unspent_in|].
  apply one_branch_run, one_branch_empty.
Qed.








(** A new login starts a family with exactly one live record, as long as
    refresh tokens have a positive lifetime. *)
Lemma issue_creates_one_live s now u :
  (0 < refresh_ttl)%Z →
  live_in now (fresh_family s) (issue s now u).1 = 1.
Proof.
  intros Httl. unfold TokenService.issue, live_in. cbn [fst].
  rewrite count_app, count_none.
  - cbn [count]. unfold live, expired, in_family. cbn.
    rewrite (proj2 (Z.leb_gt _ _)) by lia. rewrite Nat.eqb_refl. reflexivity.
  - intros r Hr. apply andb_false_iff. right.
    apply Nat.eqb_neq. pose proof (family_lt_fresh s r Hr). lia.
Qed.

End Service.



(** The two orders of the checks differ on one case only, the replay of a
    token that is both spent and expired. With the expiry check first, the
    replay of token 0 at time 12 is answered with [Expired], the store is
    left as it was, and token 2 of the same family is refreshed with success
    afterwards. *)
Example replay_with_expiry_check_first :
  TokenService.refresh 10 3 false Examples.rotated_twice 12 0
  = (Examples.rotated_twice, inl Expired)
  ∧ ∃ pair, (TokenService.refresh 10 3 false Examples.rotated_twice 13 2).2 = inr pair.
Proof. split; [reflexivity|eexists; reflexivity]. Qed.

Example rotated_twice_has_one_live :
  live_in 9 1 Examples.rotated_twice = 1 ∧ live_in 30 1 Examples.rotated_twice = 0.
Proof. split; reflexivity. Qed.

End TokenFacts.

(** ** Ownership policy *)

Module OwnershipFacts.

Import Ownership.

Section Policy.

Context {Id Resource Viewer : Type} `{EqDecision Id}.
Variable owner_id : Resource → Id.
Variable viewer_id : Viewer → Id.

Lemma owner_only_true resource viewer :
  owner_only owner_id viewer_id resource viewer = true
  ↔ ∃ v, viewer = Some v ∧ viewer_id v = owner_id resource.
Proof.
  unfold owner_only. destruct viewer as [v|].
  - rewrite bool_decide_eq_true. split; [eauto|]. intros (v' & [= <-] & Hv). exact Hv.
  - split; [discriminate|]. intros (v & Hv & _). discriminate.
Qed.

(** C10: with no override installed, [canView], [canEdit] and [canDelete]
    answer true exactly when there is a viewer and the viewer's id equals the
    id of the resource's owner; they answer false for every other viewer and
    for a missing viewer. *)
Theorem default_policy_is_owner_only (p : Overrides) resource viewer :
  canView_override p = None →
  canEdit_override p = None →
  canDelete_override p = None →
  (canView owner_id viewer_id p resource viewer = true
   ↔ ∃ v, viewer = Some v ∧ viewer_id v = owner_id resource)
  ∧ (canEdit owner_id viewer_id p resource viewer = true
     ↔ ∃ v, viewer = Some v ∧ viewer_id v = owner_id resource)
  ∧ (canDelete owner_id viewer_id p resource viewer = true
     ↔ ∃ v, viewer = Some v ∧ viewer_id v = owner_id resource)
  ∧ canView owner_id viewer_id p resource None = false
  ∧ canEdit owner_id viewer_id p resource None = false
  ∧ canDelete owner_id viewer_id p resource None = false.
Proof.
  intros Hv He Hd. unfold canView, canEdit, canDelete. rewrite Hv, He, Hd.
  repeat split; try apply owner_only_true; try (apply owner_only_true; assumption).
Qed.

End Policy.

Lemma default_policy_is_owner_only_witness :
  canView Examples.project_owner Examples.user_id no_overrides
    Examples.project (Some Examples.alice) = true
  ∧ canEdit Examples.project_owner Examples.user_id no_overrides
      Examples.project (Some Examples.bob) = false
  ∧ canDelete Examples.project_owner Examples.user_id no_overrides
      Examples.project None = false.
Proof.
  destruct (default_policy_is_owner_only Examples.project_owner Examples.user_id
              no_overrides Examples.project (Some Examples.alice)
              eq_refl eq_refl eq_refl) as (Hview & _ & _ & _ & _ & Hnone).
  destruct (default_policy_is_owner_only Examples.project_owner Examples.user_id
              no_overrides Examples.project (Some Examples.bob)
              eq_refl eq_refl eq_refl) as (_ & Hedit & _).
  split; [apply Hview; eexists; split; reflexivity|].
  split; [|exact Hnone].
  apply not_true_is_false. intros Hb.
  apply Hedit in Hb as (v & [= <-] & Hid). discriminate.
Defined.

End OwnershipFacts.

(** * Further properties of the code *)

(** ** [EmailService]: constructor and [sendEmail] *)

Module EmailMore.

Import Email Props.

(** X1: [sendEmail] returns exactly when the provider that serves the call
    did not reject the request (which includes the case that no provider is
    configured); in every other case it throws. *)
Theorem sendEmail_returns_iff_not_rejected w this to subject body unsub :
  returns (sendEmail w this to subject body unsub) = true
  ↔ delivery_failure w this to subject body unsub = None.
Proof.
  unfold sendEmail, delivery_failure, returns, result.
  destruct (mailerSendClient this) as [c|].
  - cbn. destruct (mailersend w c _); cbn; split; congruence.
  - destruct (sendGridEnabled this).
    + cbn. destruct (sendgrid w _) as [|e]; cbn; [split; congruence|].
      destruct (err_response e); cbn; split; congruence.
    + destruct (sesClient this) as [c|]; [|cbn; split; congruence].
      cbn. destruct (ses w c _); cbn; split; congruence.
Qed.

Lemma sendEmail_contacted w this to subject body unsub :
  contacted (trace (sendEmail w this to subject body unsub)) = served_by this.
Proof.
  unfold sendEmail, served_by.
  destruct (mailerSendClient this) as [c|].
  - cbn. destruct (mailersend w c _); reflexivity.
  - destruct (sendGridEnabled this).
    + cbn. destruct (sendgrid w _) as [|e]; [reflexivity|]. cbn.
      destruct (err_response e); reflexivity.
    + destruct (sesClient this) as [c|]; [|reflexivity].
      cbn. destruct (ses w c _); reflexivity.
Qed.

Lemma served_by_at_most_one this : (List.length (served_by this) ≤ 1)%nat.
Proof.
  unfold served_by.
  destruct (mailerSendClient this), (sendGridEnabled this), (sesClient this); cbn; lia.
Qed.

(** X2: whatever the fields of the instance and whatever the providers
    answer, one call of [sendEmail] hands its message to at most one
    provider: MailerSend when there is a MailerSend client, else SendGrid
    when it is enabled, else SES when there is an SES client. A rejection
    is never followed by an attempt with another provider. *)
Theorem sendEmail_no_fallback w this to subject body unsub :
  contacted (trace (sendEmail w this to subject body unsub)) = served_by this
  ∧ (List.length (contacted (trace (sendEmail w this to subject body unsub))) ≤ 1)%nat.
Proof.
  split; [apply sendEmail_contacted|].
  rewrite sendEmail_contacted. apply served_by_at_most_one.
Qed.

Lemma sendEmail_rejected_result w this to subject body unsub p e :
  delivery_failure w this to subject body unsub = Some (p, e) →
  result (sendEmail w this to subject body unsub) = Thrown (Error (failure_message p)).
Proof.
  unfold delivery_failure. intros H.
  destruct (mailerSendClient this) as [c|] eqn:Hc.
  - destruct (mailersend w c _) as [|e'] eqn:Hr; [discriminate|]. simplify_eq.
    by rewrite (EmailFacts.sendEmail_mailersend_rejected _ _ _ _ _ _ unsub _ Hc Hr).
  - destruct (sendGridEnabled this) eqn:Hg.
    + destruct (sendgrid w _) as [|e'] eqn:Hr; [discriminate|]. simplify_eq.
      exact (proj2 (EmailFacts.sendEmail_sendgrid_rejected _ _ _ _ _ _ _ Hc Hg Hr)).
    + destruct (sesClient this) as [c|] eqn:Hs; [|discriminate].
      destruct (ses w c _) as [|e'] eqn:Hr; [discriminate|]. simplify_eq.
      by rewrite (EmailFacts.sendEmail_ses_rejected _ _ _ _ _ _ _ _ Hc Hg Hs Hr).
Qed.

Lemma sendEmail_trace_long w this to subject body unsub :
  (2 ≤ List.length (trace (sendEmail w this to subject body unsub)))%nat.
Proof.
  unfold sendEmail.
  destruct (mailerSendClient this) as [c|].
  - cbn. destruct (mailersend w c _); cbn; lia.
  - destruct (sendGridEnabled this).
    + cbn. destruct (sendgrid w _) as [|e]; cbn; [lia|].
      destruct (err_response e); cbn; lia.
    + destruct (sesClient this) as [c|]; [|cbn; lia].
      cbn. destruct (ses w c _); cbn; lia.
Qed.

(** X3: with a MailerSend client the unsubscribe URL is ignored: the call
    does the same with and without it. *)
Theorem mailersend_ignores_unsubscribeUrl w this client to subject body unsub :
  mailerSendClient this = Some client →
  sendEmail w this to subject body unsub = sendEmail w this to subject body None.
Proof. intros H. unfold sendEmail. rewrite H. reflexivity. Qed.

Lemma mailersend_ignores_unsubscribeUrl_witness :
  sendEmail Examples.all_accept Examples.mailersend_service ["a@x.com"] "s" "b"
    (Some "https://example.com/unsubscribe")
  = sendEmail Examples.all_accept Examples.mailersend_service ["a@x.com"] "s" "b" None.
Proof.
  apply (mailersend_ignores_unsubscribeUrl Examples.all_accept
           Examples.mailersend_service {| apiKey := "mlsn.test-key" |}).
  reflexivity.
Defined.

(** Strings: prefixes that do not hold a given character. *)

Lemma append_nil_l (s : string) : "" +:+ s = s.
Proof. reflexivity. Qed.

Lemma append_cons_l (x : ascii) (a s : string) :
  String x a +:+ s = String x (a +:+ s).
Proof. reflexivity. Qed.

Lemma span_not_stop c a rest :
  occurs c a = false →
  Str.span_not c (a +:+ String c rest) = (a, String c rest).
Proof.
  induction a as [|x a IH]; intros H.
  - rewrite append_nil_l. cbn -[Ascii.eqb]. rewrite Ascii.eqb_refl. reflexivity.
  - rewrite append_cons_l. cbn -[Ascii.eqb] in *.
    apply orb_false_elim in H as [Hx Ha]. rewrite Hx, (IH Ha). reflexivity.
Qed.

Lemma match_angle_skip pre s :
  occurs "<" pre = false → Str.match_angle (pre +:+ s) = Str.match_angle s.
Proof.
  induction pre as [|x pre IH]; intros H; [reflexivity|].
  rewrite append_cons_l. cbn -[Ascii.eqb] in *.
  apply orb_false_elim in H as [Hx Hp]. rewrite Hx. exact (IH Hp).
Qed.

Lemma match_angle_none s : occurs "<" s = false → Str.match_angle s = None.
Proof.
  induction s as [|x s IH]; cbn -[Ascii.eqb]; intros H; [reflexivity|].
  apply orb_false_elim in H as [Hx Hs]. rewrite Hx. exact (IH Hs).
Qed.

Lemma before_stop c a rest :
  occurs c a = false → Str.before c (a +:+ String c rest) = a.
Proof.
  induction a as [|x a IH]; intros H.
  - rewrite append_nil_l. cbn -[Ascii.eqb]. rewrite Ascii.eqb_refl. reflexivity.
  - rewrite append_cons_l. cbn -[Ascii.eqb] in *.
    apply orb_false_elim in H as [Hx Ha]. rewrite Hx, (IH Ha). reflexivity.
Qed.

Lemma before_no_occurrence c s : occurs c (Str.before c s) = false.
Proof.
  induction s as [|x s IH]; cbn -[Ascii.eqb]; [reflexivity|].
  destruct (Ascii.eqb x c) eqn:Hx; cbn -[Ascii.eqb]; [reflexivity|]. rewrite Hx. exact IH.
Qed.

(** X4: when [from] is written as a display name followed by the address in
    angle brackets, the MailerSend sender (and reply-to) address is the text
    between the first ["<"] and the next [">"]: for [from] of the form
    [pre <addr> post], with no ["<"] in [pre], [addr] not empty and without
    [">"], the sender address is [addr]. *)
Theorem mailersend_sender_from_angle_brackets cfg to subject body pre addr post :
  from cfg = pre +:+ "<" +:+ addr +:+ ">" +:+ post →
  occurs "<" pre = false →
  occurs ">" addr = false →
  addr ≠ "" →
  sender_email (ep_from (mailerSendParams cfg to subject body)) = addr
  ∧ ep_replyTo (mailerSendParams cfg to subject body)
    = ep_from (mailerSendParams cfg to subject body).
Proof.
  intros Hfrom Hpre Haddr Hne. split; [|reflexivity].
  unfold mailerSendParams. cbn [ep_from sender_email]. rewrite Hfrom.
  rewrite (match_angle_skip pre _ Hpre).
  change ("<" +:+ addr +:+ ">" +:+ post)
    with (String "<" (addr +:+ String ">" post)).
  cbn [Str.match_angle]. rewrite Ascii.eqb_refl.
  rewrite (span_not_stop ">" addr post Haddr).
  destruct addr as [|a addr]; [contradiction|reflexivity].
Qed.

Lemma mailersend_sender_from_angle_brackets_witness :
  sender_email (ep_from (mailerSendParams Examples.named_config ["a@x.com"] "s" "b"))
  = "test@example.com"
  ∧ ep_replyTo (mailerSendParams Examples.named_config ["a@x.com"] "s" "b")
    = ep_from (mailerSendParams Examples.named_config ["a@x.com"] "s" "b").
Proof.
  apply (mailersend_sender_from_angle_brackets Examples.named_config ["a@x.com"] "s" "b"
           "Test Sender " "test@example.com" "");
    [reflexivity|reflexivity|reflexivity|discriminate].
Defined.

(** X5: when [from] holds no ["<"], the MailerSend sender address is [from]
    with the white space around it removed. *)
Theorem mailersend_sender_plain_address cfg to subject body :
  occurs "<" (from cfg) = false →
  sender_email (ep_from (mailerSendParams cfg to subject body)) = Str.trim (from cfg).
Proof.
  intros H. unfold mailerSendParams. cbn [ep_from sender_email].
  rewrite (match_angle_none _ H). reflexivity.
Qed.

Lemma mailersend_sender_plain_address_witness :
  sender_email (ep_from (mailerSendParams
                           {| from := "  noreply@example.com "; senderName := None |}
                           ["a@x.com"] "s" "b"))
  = "noreply@example.com".
Proof.
  apply (mailersend_sender_plain_address
           {| from := "  noreply@example.com "; senderName := None |} ["a@x.com"] "s" "b").
  reflexivity.
Defined.

(** X6: the MailerSend request has one recipient per address, in the order
    given; the name of each recipient is the part of its address before the
    first ["@"], so it holds no ["@"], and for an address [local@domain] it
    is [local]. *)
Theorem mailersend_recipients cfg to subject body :
  recipient_email <$> ep_to (mailerSendParams cfg to subject body) = to
  ∧ Forall (λ r, occurs "@" (recipient_name r) = false
                 ∧ ∀ loc domain, recipient_email r = loc +:+ "@" +:+ domain →
                                   occurs "@" loc = false →
                                   recipient_name r = loc)
      (ep_to (mailerSendParams cfg to subject body)).
Proof.
  unfold mailerSendParams. cbn [ep_to]. split.
  - induction to as [|x to IH]; cbn; [reflexivity|]. f_equal. exact IH.
  - induction to as [|x to IH]; cbn; constructor; [|exact IH].
    cbn. split; [apply before_no_occurrence|].
    intros loc domain -> Hloc. exact (before_stop "@" loc domain Hloc).
Qed.

Lemma mailersend_recipients_witness :
  recipient_email <$> ep_to (mailerSendParams Examples.config
                               ["a@x.com"; "b@y.org"] "s" "b")
  = ["a@x.com"; "b@y.org"].
Proof.
  exact (proj1 (mailersend_recipients Examples.config ["a@x.com"; "b@y.org"] "s" "b")).
Defined.

(** An empty secret reads as a missing one. *)
Lemma secret_insert_empty e k k' :
  secret (<[k:=""]> e) k' = secret (delete k e) k'.
Proof.
  unfold secret. destruct (decide (k = k')) as [<-|Hne].
  - rewrite lookup_insert_eq, lookup_delete_eq. reflexivity.
  - rewrite lookup_insert_ne, lookup_delete_ne by exact Hne. reflexivity.
Qed.

(** X7: for the constructor a provider secret that is set to the empty
    string is the same as a secret that is not set: the instance and the
    trace are those of the environment without the variable. *)
Theorem constructor_empty_secret_is_unset (new_SESClient : SESClientConstructor)
    (e : env) cfg k :
  k ∈ provider_secrets →
  constructor new_SESClient (<[k:=""]> e) cfg = constructor new_SESClient (delete k e) cfg.
Proof.
  intros Hk. unfold constructor. rewrite !secret_insert_empty.
  assert (k ≠ "AWS_SES_REGION" ∧ k ≠ "AWS_SES_SECRET_ACCESS_KEY") as [H1 H2].
  { unfold provider_secrets in Hk.
    repeat (apply elem_of_cons in Hk as [->|Hk]; [split; discriminate|]).
    by apply elem_of_nil in Hk. }
  rewrite !lookup_insert_ne, !lookup_delete_ne by assumption. reflexivity.
Qed.

Lemma constructor_empty_secret_is_unset_witness :
  constructor Examples.new_SESClient
    (<["MAILERSEND_API_KEY":=""]> Examples.sendgrid_env) Examples.config
  = constructor Examples.new_SESClient
      (delete "MAILERSEND_API_KEY" Examples.sendgrid_env) Examples.config.
Proof.
  apply (constructor_empty_secret_is_unset Examples.new_SESClient
           Examples.sendgrid_env Examples.config
           "MAILERSEND_API_KEY").
  apply elem_of_cons. left. reflexivity.
Defined.

End EmailMore.

(** ** [EmailService]: the template methods *)

Module TemplateFacts.

Import Email Templates Props TemplateProps.

Lemma sendEmail_trace_nonempty w this to subject body unsub :
  trace (sendEmail w this to subject body unsub) ≠ [].
Proof.
  unfold sendEmail.
  destruct (mailerSendClient this) as [c|].
  - cbn. destruct (mailersend w c _); discriminate.
  - destruct (sendGridEnabled this).
    + cbn. destruct (sendgrid w _) as [|e]; cbn; [discriminate|].
      destruct (err_response e); discriminate.
    + destruct (sesClient this) as [c|]; [|discriminate].
      cbn. destruct (ses w c _); discriminate.
Qed.

(** Every provider call of a [sendEmail] for one recipient and without
    unsubscribe URL is a plain message to that recipient. *)
Lemma sendEmail_plain w this to subject body :
  Forall (plain_message_to to) (trace (sendEmail w this [to] subject body None)).
Proof.
  unfold sendEmail.
  destruct (mailerSendClient this) as [c|].
  - cbn. destruct (mailersend w c _); repeat constructor.
  - destruct (sendGridEnabled this).
    + cbn. destruct (sendgrid w _) as [|e]; [repeat constructor|]. cbn.
      destruct (err_response e); repeat constructor.
    + destruct (sesClient this) as [c|]; [|repeat constructor].
      cbn. destruct (ses w c _); repeat constructor.
Qed.


Section Methods.

Variable Handlebars_compile : ∀ T : Type, string → T → outcome string string.
Variable w : Providers.
Variable this : EmailService.

(** [sendTemplateEmail], branch by branch. *)
Lemma sendTemplateEmail_unfold {T} to (template : option (EmailTemplate T)) vars defaults :
  sendTemplateEmail Handlebars_compile w this to template vars defaults
  = match template with
    | None => awaitSend (sendEmail w this [to] (default_subject defaults)
                           (default_html defaults) None)
    | Some t =>
        if disabled t then ([], Returned tt)
        else match body_of Handlebars_compile t vars defaults with
             | Thrown x => ([], Thrown x)
             | Returned text =>
                 match subject t with
                 | None => ([], Thrown (TypeError "template.subject is not a function"))
                 | Some f =>
                     awaitSend (sendEmail w this [to]
                                  (default (default_subject defaults) (f vars)) text None)
                 end
             end
    end.
Proof.
  unfold sendTemplateEmail, body_of.
  destruct template as [t|]; [|reflexivity].
  destruct (disabled t); [reflexivity|].
  destruct (truthy (handlebarsHtml t)).
  - destruct (Handlebars_compile T _ vars) as [text|msg]; [|reflexivity].
    destruct (subject t) as [f|]; [|reflexivity].
    cbn. destruct (sendEmail w this [to] _ text None) as [tr o]. destruct o; reflexivity.
  - destruct (html t) as [h|]; [|reflexivity].
    destruct (subject t) as [f|]; [|reflexivity].
    cbn. destruct (sendEmail w this [to] _ _ None) as [tr o]. destruct o; reflexivity.
Qed.

Lemma awaitSend_trace {A} (m : M event exn A) : trace (awaitSend m) = trace m.
Proof. reflexivity. Qed.

Lemma awaitSend_not_silent to subject body :
  awaitSend (sendEmail w this [to] subject body None) ≠ ([], Returned tt).
Proof.
  intros H. apply (f_equal fst) in H. cbn in H.
  exact (sendEmail_trace_nonempty w this [to] subject body None H).
Qed.

Lemma sendTemplateEmail_silent_iff_disabled_aux {T} to (t : EmailTemplate T) vars defaults :
  sendTemplateEmail Handlebars_compile w this to (Some t) vars defaults = ([], Returned tt)
  ↔ disabled t = true.
Proof.
  rewrite sendTemplateEmail_unfold. destruct (disabled t) eqn:Hd; [split; reflexivity|].
  split; [|discriminate].
  destruct (body_of Handlebars_compile t vars defaults); [|discriminate].
  destruct (subject t); [|discriminate].
  intros H. destruct (awaitSend_not_silent _ _ _ H).
Qed.

(** X8: [sendTemplateEmail] returns without any effect (no log line, no
    call of a provider) exactly when it is given a template that is
    disabled. *)
Theorem sendTemplateEmail_silent_iff_disabled {T} to (template : option (EmailTemplate T))
    vars defaults :
  sendTemplateEmail Handlebars_compile w this to template vars defaults = ([], Returned tt)
  ↔ ∃ t, template = Some t ∧ disabled t = true.
Proof.
  destruct template as [t|].
  - rewrite sendTemplateEmail_silent_iff_disabled_aux. split; [eauto|].
    intros (t' & [= <-] & Ht). exact Ht.
  - rewrite sendTemplateEmail_unfold. split.
    + intros H. destruct (awaitSend_not_silent _ _ _ H).
    + intros (t & Ht & _). discriminate.
Qed.

(** X9: whatever the template, [sendTemplateEmail] hands at most one message
    to at most one provider; the message goes to the single recipient [to]
    and carries no unsubscribe headers. *)
Theorem sendTemplateEmail_one_plain_message {T} to (template : option (EmailTemplate T))
    vars defaults :
  Forall (plain_message_to to)
    (trace (sendTemplateEmail Handlebars_compile w this to template vars defaults))
  ∧ (List.length (contacted
                    (trace (sendTemplateEmail Handlebars_compile w this to template
                              vars defaults))) ≤ 1)%nat.
Proof.
  rewrite sendTemplateEmail_unfold.
  assert (∀ subj text,
            Forall (plain_message_to to)
              (trace (awaitSend (sendEmail w this [to] subj text None)))
            ∧ (List.length (contacted (trace (awaitSend (sendEmail w this [to] subj text None))))
               ≤ 1)%nat) as Hsend.
  { intros subj text. rewrite awaitSend_trace. split; [apply sendEmail_plain|].
    rewrite EmailMore.sendEmail_contacted. apply EmailMore.served_by_at_most_one. }
  destruct template as [t|]; [|apply Hsend].
  destruct (disabled t); [split; [constructor|cbn; lia]|].
  destruct (body_of Handlebars_compile t vars defaults); [|split; [constructor|cbn; lia]].
  destruct (subject t); [apply Hsend|split; [constructor|cbn; lia]].
Qed.

(** X10: a Handlebars source takes the place of the [html] function and of
    the default body: two templates that agree on [disabled], on a truthy
    [handlebarsHtml] and on [subject] give the same run, whatever their
    [html] fields and the default bodies are. *)
Theorem handlebars_source_overrides_html {T} to (t1 t2 : EmailTemplate T) vars d1 d2 :
  truthy (handlebarsHtml t1) = true →
  handlebarsHtml t2 = handlebarsHtml t1 →
  disabled t2 = disabled t1 →
  subject t2 = subject t1 →
  default_subject d2 = default_subject d1 →
  sendTemplateEmail Handlebars_compile w this to (Some t2) vars d2
  = sendTemplateEmail Handlebars_compile w this to (Some t1) vars d1.
Proof.
  intros Ht Hh Hd Hs Hds. rewrite !sendTemplateEmail_unfold.
  unfold body_of. rewrite Hh, Hd, Hs, Hds, Ht. reflexivity.
Qed.


Variable templates : option TemplateSet.

(** X12: [sendNewSubscriptionEmail] returns without any effect exactly when
    the subscription type names no property of [newSubscription], own or
    inherited from [Object.prototype] (which is also the case when there are
    no templates or no [newSubscription] object), or when the template that
    is configured for the type is disabled. There is no built-in
    confirmation; for an inherited name such as ["toString"] the method does
    not return silently. *)
Theorem sendNewSubscriptionEmail_silent_iff user type :
  sendNewSubscriptionEmail Handlebars_compile w this templates user type
  = ([], Returned tt)
  ↔ match t ← templates; newSubscription t with
    | None => True
    | Some object =>
        match object !! type with
        | Some t => disabled t = true
        | None => type ∉ Object_prototype
        end
    end.
Proof.
  unfold sendNewSubscriptionEmail. fold (subscription_template templates type).
  unfold subscription_template.
  destruct (t ← templates; newSubscription t) as [object|] eqn:Hobj.
  - assert ((t ← templates; object ← newSubscription t; property object type)
            = property object type) as ->.
    { destruct templates as [ts|]; [|discriminate]. cbn in *. by rewrite Hobj. }
    unfold property. destruct (object !! type) as [t|].
    + apply sendTemplateEmail_silent_iff_disabled_aux.
    + destruct (bool_decide_reflect (type ∈ Object_prototype)) as [Hin|Hout].
      * rewrite sendTemplateEmail_silent_iff_disabled_aux. cbn.
        split; [discriminate|contradiction].
      * split; [intros _; exact Hout|reflexivity].
  - assert ((t ← templates; object ← newSubscription t; property object type) = None)
      as ->; [|split; auto].
    destruct templates as [ts|]; [|reflexivity]. cbn in *. by rewrite Hobj.
Qed.

(** X13: without a template of their own, the verification and the
    password-reset emails do not carry the link that is built for the
    templates: the verification email is the same whatever the environment
    holds, and the password-reset email depends on the environment through
    [FRONTEND_ENDPOINT] only. *)
Theorem default_code_emails_ignore_link_urls (e e' : env) user code :
  ((t ← templates; verification t) = None →
   sendVerificationEmail Handlebars_compile w this templates e user code
   = sendVerificationEmail Handlebars_compile w this templates e' user code)
  ∧ ((t ← templates; passwordReset t) = None →
     e !! "FRONTEND_ENDPOINT" = e' !! "FRONTEND_ENDPOINT" →
     sendPasswordResetEmail Handlebars_compile w this templates e user code
     = sendPasswordResetEmail Handlebars_compile w this templates e' user code).
Proof.
  split.
  - intros Ht. unfold sendVerificationEmail. rewrite Ht.
    rewrite !sendTemplateEmail_unfold. reflexivity.
  - intros Ht He. unfold sendPasswordResetEmail. rewrite Ht, He.
    rewrite !sendTemplateEmail_unfold. reflexivity.
Qed.

Lemma sendTemplateEmail_trace_not_single {T} to (template : option (EmailTemplate T))
    vars defaults :
  List.length (trace (sendTemplateEmail Handlebars_compile w this to template vars defaults))
  ≠ 1%nat.
Proof.
  rewrite sendTemplateEmail_unfold.
  assert (∀ subj text,
            List.length (trace (awaitSend (sendEmail w this [to] subj text None))) ≠ 1%nat)
    as Hsend.
  { intros subj text. rewrite awaitSend_trace.
    pose proof (EmailMore.sendEmail_trace_long w this [to] subj text None). lia. }
  destruct template as [t|]; [|apply Hsend].
  destruct (disabled t); [discriminate|].
  destruct (body_of Handlebars_compile t vars defaults); [|discriminate].
  destruct (subject t); [apply Hsend|discriminate].
Qed.

(** X14: [sendFailedPaymentEmail] logs the warning that no address was
    provided, and does nothing else, exactly when the email of the user is
    empty; a template for the notice does not change that. *)
Theorem sendFailedPaymentEmail_without_address user failureReason amount paymentFixUrl :
  sendFailedPaymentEmail Handlebars_compile w this templates user failureReason amount
    paymentFixUrl
  = ([LoggerWarn "Cannot send failed payment email: no email address provided"],
     Returned tt)
  ↔ email user = "".
Proof.
  unfold sendFailedPaymentEmail, truthy.
  destruct (String.eqb_spec (email user) "") as [He|Hne]; cbn [negb].
  - split; [intros _; exact He|reflexivity].
  - split; [|contradiction].
    intros H. apply (f_equal (λ m, List.length (fst m))) in H. cbn in H.
    exfalso. exact (sendTemplateEmail_trace_not_single _ _ _ _ H).
Qed.

(** X15: a rejected delivery is fatal to the notices of the sign-up and
    password-reset flows. Without a template of their own, when the provider
    that serves the instance rejects the default message,
    [sendVerificationEmail] and [sendPasswordResetEmail] throw the error of
    [sendEmail]. *)
Theorem code_emails_throw_on_rejection (e : env) user code p err :
  ((t ← templates; verification t) = None →
   delivery_failure w this [email user] "Please verify your email"
     ("<p>Please verify your email with code: " +:+ code +:+ "</p>") None = Some (p, err) →
   result (sendVerificationEmail Handlebars_compile w this templates e user code)
   = Thrown (SendFailed (Error (failure_message p))))
  ∧ ((t ← templates; passwordReset t) = None →
     delivery_failure w this [email user] "Password Reset Request"
       ("<p>To reset your password, please click the following link: <a href="
        +:+ dq
        +:+ (show (e !! "FRONTEND_ENDPOINT") +:+ "/complete-password-reset?code=" +:+ code)
        +:+ dq +:+ ">"
        +:+ (show (e !! "FRONTEND_ENDPOINT") +:+ "/complete-password-reset?code=" +:+ code)
        +:+ "</a></p>") None
     = Some (p, err) →
     result (sendPasswordResetEmail Handlebars_compile w this templates e user code)
     = Thrown (SendFailed (Error (failure_message p)))).
Proof.
  split.
  - intros Ht Hf. unfold sendVerificationEmail. rewrite Ht, sendTemplateEmail_unfold.
    unfold awaitSend, result at 1. cbn [snd default_subject default_html].
    by rewrite (EmailMore.sendEmail_rejected_result _ _ _ _ _ _ _ _ Hf).
  - intros Ht Hf. unfold sendPasswordResetEmail. rewrite Ht, sendTemplateEmail_unfold.
    unfold awaitSend, result at 1. cbn [snd default_subject default_html].
    by rewrite (EmailMore.sendEmail_rejected_result _ _ _ _ _ _ _ _ Hf).
Qed.

End Methods.

Lemma handlebars_source_overrides_html_witness :
  sendTemplateEmail Fixtures.render Examples.all_accept Examples.unconfigured_service
    "a@x.com" (Some (Fixtures.hbs_template (Some (λ _, Some "<p>ignored</p>")))) tt
    {| default_subject := "Hello"; default_html := "<p>one</p>" |}
  = sendTemplateEmail Fixtures.render Examples.all_accept Examples.unconfigured_service
      "a@x.com" (Some (Fixtures.hbs_template None)) tt
      {| default_subject := "Hello"; default_html := "<p>two</p>" |}.
Proof.
  apply (handlebars_source_overrides_html Fixtures.render Examples.all_accept
           Examples.unconfigured_service "a@x.com");
    reflexivity.
Defined.

Lemma default_code_emails_ignore_link_urls_witness :
  sendVerificationEmail Fixtures.render Examples.all_accept Examples.mailersend_service
    None Examples.frontend_env Fixtures.carol "123456"
  = sendVerificationEmail Fixtures.render Examples.all_accept Examples.mailersend_service
      None ∅ Fixtures.carol "123456".
Proof.
  apply (default_code_emails_ignore_link_urls Fixtures.render Examples.all_accept
           Examples.mailersend_service None Examples.frontend_env ∅ Fixtures.carol "123456").
  reflexivity.
Defined.

Lemma code_emails_throw_on_rejection_witness :
  result (sendVerificationEmail Fixtures.render Examples.all_reject
            Examples.mailersend_service None ∅ Fixtures.carol "123456")
  = Thrown (SendFailed (Error "Failed to send email via MailerSend")).
Proof.
  apply (code_emails_throw_on_rejection Fixtures.render Examples.all_reject
           Examples.mailersend_service None ∅ Fixtures.carol "123456"
           MailerSendP Examples.smtp_down); reflexivity.
Defined.

(** A subscription type that is the name of an inherited property: no
    template is configured, and yet the guard lets the call through, and it
    ends in a [TypeError]. *)
Example subscription_type_toString :
  sendNewSubscriptionEmail Fixtures.render Examples.all_accept
    Examples.mailersend_service (Some Fixtures.no_subscription_templates)
    Fixtures.carol "toString"
  = ([], Thrown (TypeError "template.html is not a function"))
  ∧ sendNewSubscriptionEmail Fixtures.render Examples.all_accept
      Examples.mailersend_service (Some Fixtures.no_subscription_templates)
      Fixtures.carol "pro"
    = ([], Returned tt).
Proof. split; vm_compute; reflexivity. Qed.

End TemplateFacts.

(** ** Turnstile: service and controller *)

Module TurnstileMore.

Import Turnstile Props TurnstileProps.

Lemma validateTurnstile_validation secretKey w token remoteip :
  result (validateTurnstile secretKey w token remoteip)
  = Returned (validation_of (fetch w siteverify_url (formData secretKey token remoteip)))
  ∧ posts (trace (validateTurnstile secretKey w token remoteip))
    = [(siteverify_url, formData secretKey token remoteip)]
  ∧ age_warnings (trace (validateTurnstile secretKey w token remoteip)) = [].
Proof.
  destruct (TurnstileFacts.validateTurnstile_cases secretKey w token remoteip)
    as [(v & Hf & ->)|(e & [[Hf ->]|[Hf ->]])]; rewrite Hf; repeat split.
Qed.

Section Service.

Variable Date_getTime : option string → option Z.

Lemma enhanced_verdict secretKey w now token remoteip ea eh :
  result (validateTurnstileEnhanced Date_getTime secretKey w now token remoteip ea eh)
  = outcome_of Date_getTime now
      (validation_of (fetch w siteverify_url (formData secretKey token remoteip))) ea eh.
Proof.
  destruct (validateTurnstile secretKey w token remoteip) as [tr o] eqn:Hvt.
  destruct (validateTurnstile_validation secretKey w token remoteip) as (Hr & _).
  rewrite Hvt in Hr. cbn in Hr. subst o.
  destruct (validation_of _) as [|v].
  - by rewrite (TurnstileFacts.enhanced_unfold_null _ _ _ now _ _ ea eh _ Hvt).
  - rewrite (TurnstileFacts.enhanced_unfold _ _ _ now _ _ ea eh _ _ Hvt).
    unfold outcome_of, verdict.
    destruct (negb (success _)); [reflexivity|].
    destruct (truthy ea && _); [reflexivity|].
    destruct (truthy eh && _); reflexivity.
Qed.

Lemma enhanced_trace secretKey w now token remoteip ea eh :
  trace (validateTurnstileEnhanced Date_getTime secretKey w now token remoteip ea eh)
  = trace (validateTurnstile secretKey w token remoteip)
    ++ warning_of Date_getTime now
         (validation_of (fetch w siteverify_url (formData secretKey token remoteip)))
         ea eh.
Proof.
  destruct (validateTurnstile secretKey w token remoteip) as [tr o] eqn:Hvt.
  destruct (validateTurnstile_validation secretKey w token remoteip) as (Hr & _).
  rewrite Hvt in Hr. cbn in Hr. subst o.
  destruct (validation_of _) as [|v].
  - rewrite (TurnstileFacts.enhanced_unfold_null _ _ _ now _ _ ea eh _ Hvt).
    cbn. by rewrite app_nil_r.
  - rewrite (TurnstileFacts.enhanced_unfold _ _ _ now _ _ ea eh _ _ Hvt).
    unfold warning_of, verdict.
    destruct (negb (success v)); [cbn; by rewrite app_nil_r|].
    destruct (truthy ea && _); [cbn; by rewrite app_nil_r|].
    destruct (truthy eh && _); [cbn; by rewrite app_nil_r|].
    reflexivity.
Qed.

(** X16: one validation makes exactly one request, to the siteverify
    endpoint, also when the request fails (there is no retry). The form holds
    the secret and the token, and the client address exactly when it is
    truthy. *)
Theorem validation_posts_once secretKey w now token remoteip ea eh :
  posts (trace (validateTurnstileEnhanced Date_getTime secretKey w now token remoteip ea eh))
  = [(siteverify_url, formData secretKey token remoteip)]
  ∧ (∀ x, ("remoteip", x) ∈ formData secretKey token remoteip
          ↔ remoteip = Some x ∧ x ≠ "").
Proof.
  split.
  - rewrite enhanced_trace.
    destruct (validateTurnstile_validation secretKey w token remoteip) as (_ & Hp & _).
    unfold posts in *. rewrite omap_app, Hp. unfold warning_of.
    destruct (validation_of _) as [|v]; [reflexivity|].
    destruct (valid _ && number_gt _ 4); reflexivity.
  - intros x. unfold formData, truthy.
    destruct remoteip as [i|]; [destruct (String.eqb_spec i "") as [->|Hne]|]; cbn.
    + split.
      * intros H. repeat (apply elem_of_cons in H as [[=]|H]). by apply elem_of_nil in H.
      * intros [[= <-] Hx]. contradiction.
    + split.
      * intros H. repeat (apply elem_of_cons in H as [H|H]; [simplify_eq|]);
          [auto|by apply elem_of_nil in H].
      * intros [[= <-] _]. set_solver.
    + split.
      * intros H. repeat (apply elem_of_cons in H as [[=]|H]). by apply elem_of_nil in H.
      * intros [[=] _].
Qed.

(** X17: a valid result is given only for an answer that the endpoint
    really gave: the request and the parsing succeeded, the answer has
    [success] true, and it meets each expectation that is checked. The data
    of the result is that answer. *)
Theorem valid_result_is_sound secretKey w now token remoteip ea eh r :
  result (validateTurnstileEnhanced Date_getTime secretKey w now token remoteip ea eh)
  = Returned r →
  valid r = true →
  ∃ v, fetch w siteverify_url (formData secretKey token remoteip)
       = Resolves (Resolves (Fields v))
       ∧ success v = true
       ∧ (truthy ea = false ∨ action v = ea)
       ∧ (truthy eh = false ∨ hostname v = eh)
       ∧ data r = Some v.
Proof.
  rewrite enhanced_verdict.
  destruct (fetch w siteverify_url _) as [[[|v]|e]|e]; cbn [validation_of outcome_of];
    [discriminate| |intros [= <-]; cbn; discriminate..].
  intros [= <-]. unfold verdict.
  destruct (success v) eqn:Hs; cbn [negb]; [|cbn; discriminate].
  destruct (truthy ea && strict_ne (action v) ea) eqn:Ha; [cbn; discriminate|].
  destruct (truthy eh && strict_ne (hostname v) eh) eqn:Hh; [cbn; discriminate|].
  apply TurnstileFacts.check_passes in Ha, Hh. intros _.
  exists v. repeat split; assumption || reflexivity.
Qed.

(** X18: an expectation that is the empty string is the same as no
    expectation: the run of the validator is the same. *)
Theorem empty_expectation_is_none secretKey w now token remoteip ea eh :
  validateTurnstileEnhanced Date_getTime secretKey w now token remoteip
    (if truthy ea then ea else None) (if truthy eh then eh else None)
  = validateTurnstileEnhanced Date_getTime secretKey w now token remoteip ea eh.
Proof.
  unfold validateTurnstileEnhanced.
  destruct (truthy ea) eqn:Ha, (truthy eh) eqn:Hh; rewrite ?Ha, ?Hh; try reflexivity;
    destruct (validateTurnstile secretKey w token remoteip) as [tr [[|v]|x]];
    try reflexivity; cbn;
    destruct (negb (success v)); try reflexivity;
    rewrite ?andb_false_l; cbn;
    repeat match goal with
           | |- context [truthy ?a && ?b] => destruct (truthy a && b)
           end; reflexivity.
Qed.

Lemma older_than_four_minutes now v :
  number_gt (ageMinutes Date_getTime now v) 4 = true
  ↔ ∃ t, Date_getTime (challenge_ts v) = Some t ∧ (240000 < now - t)%Z.
Proof.
  unfold ageMinutes, number_gt.
  destruct (Date_getTime (challenge_ts v)) as [t|].
  - rewrite negb_true_iff, <- not_true_iff_false, Qle_bool_iff.
    unfold Qle. cbn [Qnum Qden]. split.
    + intros H. exists t. split; [reflexivity|]. lia.
    + intros (t' & [= <-] & H). lia.
  - split; [discriminate|]. intros (t & Ht & _). discriminate.
Qed.

(** X19: a warning about the age of the token is printed exactly when the
    result is valid, the challenge timestamp of the answer parses, and the
    clock is more than 240000 ms past it. A result that is not valid, or a
    timestamp that does not parse, never gives a warning. *)
Theorem age_warning_threshold secretKey w now token remoteip ea eh :
  age_warnings
    (trace (validateTurnstileEnhanced Date_getTime secretKey w now token remoteip ea eh))
  ≠ []
  ↔ ∃ r v t,
      result (validateTurnstileEnhanced Date_getTime secretKey w now token remoteip ea eh)
      = Returned r
      ∧ valid r = true ∧ data r = Some v
      ∧ Date_getTime (challenge_ts v) = Some t ∧ (240000 < now - t)%Z.
Proof.
  rewrite enhanced_trace, enhanced_verdict.
  destruct (validateTurnstile_validation secretKey w token remoteip) as (_ & _ & Hw).
  unfold age_warnings in *. rewrite omap_app, Hw, app_nil_l.
  destruct (validation_of _) as [|v]; cbn [warning_of outcome_of];
    [split; [contradiction|intros (r & v' & t & [=] & _)]|].
  assert (valid (verdict Date_getTime now v ea eh) = true →
          data (verdict Date_getTime now v ea eh) = Some v) as Hdata.
  { unfold verdict. destruct (negb (success v)); [discriminate|].
    destruct (truthy ea && _); [discriminate|].
    destruct (truthy eh && _); [discriminate|reflexivity]. }
  destruct (valid (verdict Date_getTime now v ea eh)) eqn:Hv; cbn [andb].
  - destruct (number_gt (ageMinutes Date_getTime now v) 4) eqn:Hgt.
    + split; [intros _|discriminate].
      apply older_than_four_minutes in Hgt as (t & Ht & Hlt).
      exists (verdict Date_getTime now v ea eh), v, t. auto using Hdata.
    + split; [contradiction|].
      intros (r & v' & t & [= <-] & _ & Hd & Ht & Hlt).
      rewrite (Hdata eq_refl) in Hd. injection Hd as <-.
      assert (number_gt (ageMinutes Date_getTime now v) 4 = true) as Hgt'
        by (apply older_than_four_minutes; eauto).
      congruence.
  - split; [contradiction|].
    intros (r & v' & t & [= <-] & Hvalid & _). congruence.
Qed.

End Service.

(** X20: the client address that the controller forwards is the first
    truthy value among the [cf-connecting-ip] header, the [x-forwarded-for]
    header and the address of the connection, and [null] when there is none;
    it is never the empty string. *)
Theorem clientIp_first_truthy req :
  clientIp req = first_truthy (ip_candidates req)
  ∧ ∀ s, clientIp req = Some s → s ≠ "".
Proof.
  unfold clientIp, ip_candidates, first_truthy, or_else.
  destruct (headers req !! "cf-connecting-ip") as [a|] eqn:Ha;
    destruct (headers req !! "x-forwarded-for") as [b|] eqn:Hb;
    destruct (ip req) as [c|] eqn:Hc;
    unfold truthy;
    repeat match goal with
           | |- context [String.eqb ?x ""] =>
               destruct (String.eqb_spec x ""); cbn [negb]
           end;
    try (exfalso; congruence);
    (split; [reflexivity|intros s Hs; congruence]).
Qed.

Section Controller.

Variable Date_getTime : option string → option Z.
Variable URL_hostname : string → option string.

(** X21: when [FRONTEND_ENDPOINT] is not set, or set to the empty string,
    and the URL constructor refuses the empty string, every submission ends
    with a [TypeError] and the validator is not called. *)
Theorem missing_frontend_endpoint_throws (validate : Validator) e req token :
  URL_hostname "" = None →
  truthy (e !! "FRONTEND_ENDPOINT") = false →
  handleFormSubmission URL_hostname validate e req token
  = ([], Thrown (TypeError "Invalid URL")).
Proof.
  intros HU He. unfold handleFormSubmission, or_str.
  destruct (e !! "FRONTEND_ENDPOINT") as [u|]; rewrite ?He, HU; reflexivity.
Qed.




End Controller.

Lemma valid_result_is_sound_witness :
  ∃ v, fetch (Examples.answers (Examples.passed "signup")) siteverify_url
         (formData None "token123" (Some "1.2.3.4"))
       = Resolves (Resolves (Fields v))
       ∧ success v = true
       ∧ (truthy (Some "signup") = false ∨ action v = Some "signup")
       ∧ (truthy (Some "example.com") = false ∨ hostname v = Some "example.com")
       ∧ data (valid_result Examples.parse_date 0 (Examples.passed "signup")) = Some v.
Proof.
  apply (valid_result_is_sound Examples.parse_date None
           (Examples.answers (Examples.passed "signup")) 0 "token123" (Some "1.2.3.4")
           (Some "signup") (Some "example.com")
           (valid_result Examples.parse_date 0 (Examples.passed "signup")));
    reflexivity.
Defined.

Lemma missing_frontend_endpoint_throws_witness :
  handleFormSubmission Examples.url_hostname (Examples.stub Examples.rejected_result)
    ∅ Examples.request "token123"
  = ([], Thrown (TypeError "Invalid URL")).
Proof.
  apply (missing_frontend_endpoint_throws Examples.url_hostname
           (Examples.stub Examples.rejected_result) ∅ Examples.request "token123");
    reflexivity.
Defined.


(** The handler in front of the service on a body that is [null]. *)
Example gate_on_null_body :
  handleFormSubmission Examples.url_hostname
    (validateTurnstileEnhanced Examples.parse_date (Some "secret")
       Examples.answers_null 0)
    Examples.frontend_env Examples.request "token123"
  = ([ValidateCall "token123" (Some "1.2.3.4") (Some "signup") (Some "example.com");
      HttpPost siteverify_url
        [("secret", "secret"); ("response", "token123"); ("remoteip", "1.2.3.4")]],
     Thrown (TypeError "Cannot read properties of null (reading 'success')")).
Proof. vm_compute. reflexivity. Qed.

(** The handler in front of the service on the answers of the tests. *)
Example gate_accepts_signup :
  result (handleFormSubmission Examples.url_hostname
            (validateTurnstileEnhanced Examples.parse_date (Some "secret")
               (Examples.answers (Examples.passed "signup")) 0)
            Examples.frontend_env Examples.request "token123")
  = Returned {| ok := true |}.
Proof. vm_compute. reflexivity. Qed.

End TurnstileMore.
